(** * open-xiaoai, examples/migpt: the speaker bridge and the event handler

    A shallow embedding of [migpt/speaker.ts] (class [SpeakerManager]) and
    [migpt/xiaoai.ts] (class [OpenXiaoAIEngine]), and the properties of the
    command/event bridge proved about it.

    Conventions.
    - A JavaScript string is its sequence of UTF-16 code units, [list N].
    - Inside the literals given to [u], a backquote stands for the double
      quote character (code unit 34).
    - [await] is sequential composition; a rejected promise and a thrown
      exception are both [Throw]. *)

From Stdlib Require Import String Ascii List NArith ZArith QArith Qminmax Bool Lia.
From Stdlib Require Import DecimalString.
Import ListNotations.
Close Scope Q_scope.

Set Warnings "-register-all".

(* ================================================================== *)
(** * JavaScript strings *)

Module JSString.

Definition ustring := list N.

Definition unit_of_ascii (c : ascii) : N :=
  if Ascii.eqb c "`"%char then 34%N else N_of_ascii c.

(** [u "..."] is the string literal with those (ASCII) characters. *)
Fixpoint u (s : string) : ustring :=
  match s with
  | EmptyString => []
  | String c r => unit_of_ascii c :: u r
  end.

Fixpoint ustring_eqb (a b : ustring) : bool :=
  match a, b with
  | [], [] => true
  | x :: a', y :: b' => N.eqb x y && ustring_eqb a' b'
  | _, _ => false
  end.

(** [s.startsWith(m)] *)
Fixpoint startsWith (s m : ustring) {struct m} : bool :=
  match m, s with
  | [], _ => true
  | y :: m', x :: s' => N.eqb x y && startsWith s' m'
  | _ :: _, [] => false
  end.

(** [s.includes(m)] *)
Fixpoint includes (s m : ustring) : bool :=
  startsWith s m ||
  match s with
  | [] => false
  | _ :: s' => includes s' m
  end.

(** White space and line terminators of ECMA-262: what [\s] matches and
    what [trim] strips. *)
Definition is_space (c : N) : bool :=
  ((9 <=? c) && (c <=? 13) || (c =? 32) || (c =? 160) || (c =? 5760)
   || (8192 <=? c) && (c <=? 8202) || (c =? 8232) || (c =? 8233)
   || (c =? 8239) || (c =? 8287) || (c =? 12288) || (c =? 65279))%N.

Fixpoint trimStart (s : ustring) : ustring :=
  match s with
  | c :: s' => if is_space c then trimStart s' else s
  | [] => []
  end.

Definition trimEnd (s : ustring) : ustring := rev (trimStart (rev s)).

(** [s.trim()] *)
Definition trim (s : ustring) : ustring := trimEnd (trimStart s).

(** [s.split(sep)] for a separator of one code unit; [cur] is the piece
    being read, reversed.  The empty string splits into one empty piece. *)
Fixpoint split_from (sep : N) (cur : ustring) (s : ustring) : list ustring :=
  match s with
  | [] => [rev cur]
  | c :: s' =>
      if N.eqb c sep then rev cur :: split_from sep [] s'
      else split_from sep (c :: cur) s'
  end.

Definition split (sep : N) (s : ustring) : list ustring := split_from sep [] s.

(** [s.toLowerCase()].  The twenty-six ASCII capitals, and the two
    characters outside ASCII whose lower case reaches into ASCII: U+0130
    (capital I with dot above, lowered to [i] followed by U+0307) and
    U+212A (the Kelvin sign, lowered to [k]).  Every other character is
    mapped by the Unicode tables to a character outside ASCII and is kept
    as it is here. *)
Definition lower_unit (c : N) : ustring :=
  (if (65 <=? c) && (c <=? 90) then [c + 32]
   else if c =? 304 then [105; 775]
   else if c =? 8490 then [107]
   else [c])%N.

Definition toLowerCase (s : ustring) : ustring := flat_map lower_unit s.

End JSString.
Export JSString.

(* ================================================================== *)
(** * Regular expressions

    The fragment of the ECMAScript pattern language that the two
    sanitizers use: characters, classes, sequence, alternation, groups and
    a class under a greedy ([*]) or lazy ([*?]) star.  Matching is the
    backtracking of ECMA-262: alternatives left to right, a greedy star
    longest first, a lazy star shortest first, and the first success
    wins. *)

Module RegExp.

Inductive regex : Type :=
| Eps
| Chr (c : N)
| Cls (p : N -> bool)
| Cat (r1 r2 : regex)
| Alt (r1 r2 : regex)
| Grp (r : regex)
| Star (greedy : bool) (p : N -> bool).

(** The pattern that matches the characters of [s] in a row. *)
Fixpoint lit (s : ustring) : regex :=
  match s with
  | [] => Eps
  | [c] => Chr c
  | c :: s' => Cat (Chr c) (lit s')
  end.

(** [\s], and [[\s\S]]: without the [u] flag the latter takes any code
    unit. *)
Definition cls_s : N -> bool := is_space.
Definition cls_sS : N -> bool := fun c => is_space c || negb (is_space c).

Section Matcher.
Variable k : ustring -> option ustring.

Fixpoint star_greedy (p : N -> bool) (s : ustring) : option ustring :=
  match s with
  | c :: s' =>
      if p c then
        match star_greedy p s' with
        | Some e => Some e
        | None => k s
        end
      else k s
  | [] => k s
  end.

Fixpoint star_lazy (p : N -> bool) (s : ustring) : option ustring :=
  match k s with
  | Some e => Some e
  | None =>
      match s with
      | c :: s' => if p c then star_lazy p s' else None
      | [] => None
      end
  end.
End Matcher.

(** [rmatch r s k]: match [r] at the start of [s], then go on with [k] on
    what is left; [None] when every way of matching fails. *)
Fixpoint rmatch (r : regex) (s : ustring) (k : ustring -> option ustring)
  : option ustring :=
  match r with
  | Eps => k s
  | Chr c =>
      match s with
      | x :: s' => if N.eqb x c then k s' else None
      | [] => None
      end
  | Cls p =>
      match s with
      | x :: s' => if p x then k s' else None
      | [] => None
      end
  | Cat r1 r2 => rmatch r1 s (fun s' => rmatch r2 s' k)
  | Alt r1 r2 =>
      match rmatch r1 s k with
      | Some e => Some e
      | None => rmatch r2 s k
      end
  | Grp r1 => rmatch r1 s k
  | Star true p => star_greedy k p s
  | Star false p => star_lazy k p s
  end.

(** A match of [r] that starts at the first character of [s]: its length. *)
Definition exec_at (r : regex) (s : ustring) : option nat :=
  match rmatch r s (fun rest => Some rest) with
  | Some rest => Some (length s - length rest)
  | None => None
  end.

(** [s.replace(/r/g, repl)] for a replacement text without [$] patterns.
    The search goes left to right; [skip] counts the characters of the
    current match that are still to be dropped.  After an empty match the
    search moves on by one character. *)
Fixpoint replace_from (r : regex) (repl : ustring) (skip : nat) (s : ustring)
  : ustring :=
  match skip, s with
  | S n, _ :: s' => replace_from r repl n s'
  | S _, [] => []
  | O, [] =>
      match exec_at r [] with
      | Some _ => repl
      | None => []
      end
  | O, c :: s' =>
      match exec_at r s with
      | Some O => repl ++ c :: replace_from r repl 0 s'
      | Some (S n) => repl ++ replace_from r repl n s'
      | None => c :: replace_from r repl 0 s'
      end
  end.

Definition replace_all (r : regex) (repl : ustring) (s : ustring) : ustring :=
  replace_from r repl 0 s.

End RegExp.
Export RegExp.

(* ================================================================== *)
(** * The patterns of the two sanitizers *)

Definition open_tag : ustring := Eval cbv in u "<think>".
Definition close_tag : ustring := Eval cbv in u "</think>".

(** [/<think>|<\/think>/g] *)
Definition re_tags : regex := Alt (lit open_tag) (lit close_tag).

(** [/<think>[\s\S]*?<\/think>/g] *)
Definition re_block : regex :=
  Cat (lit open_tag) (Cat (Star false cls_sS) (lit close_tag)).

(** [/<think>\s*\n([\s\S]*?)\n\s*<\/think>/g] *)
Definition re_block_lines : regex :=
  Cat (lit open_tag)
    (Cat (Star true cls_s)
       (Cat (Chr 10)
          (Cat (Grp (Star false cls_sS))
             (Cat (Chr 10) (Cat (Star true cls_s) (lit close_tag)))))).

(* ================================================================== *)
(** * JavaScript values and [JSON.parse] *)

Module JS.

(** A Number is kept as the exact decimal value of its literal,
    [(-1)^neg * mant * 10^exp10], before it is rounded to a double. *)
Record number : Type := mkNumber { num_neg : bool; num_mant : N; num_exp10 : Z }.

(** The only question the program asks of a Number is whether it is zero
    (truthiness, and [=== 0]).  The literal rounds to [+0] or [-0] when it
    is zero or at most [2^-1075], half of the least positive double. *)
Definition number_is_zero (n : number) : bool :=
  (num_mant n =? 0)%N
  || ((num_exp10 n <? 0)%Z
      && (Z.of_N (num_mant n) * 2 ^ 1075 <=? 10 ^ (- num_exp10 n))%Z).

Inductive JSValue : Type :=
| JUndefined
| JNull
| JBool (b : bool)
| JNum (n : number)
| JStr (s : ustring)
| JArr (items : list JSValue)
| JObj (props : list (ustring * JSValue)).

Inductive JSError : Type :=
| SyntaxError
| TypeError
| BridgeError.

(** How an evaluation ends: with a value, or with a thrown error. *)
Inductive completion (A : Type) : Type :=
| Normal (a : A)
| Throw (e : JSError).
Arguments Normal {A} a.
Arguments Throw {A} e.

(** ** The JSON grammar (ECMA-404), as [JSON.parse] reads it *)

Definition is_json_ws (c : N) : bool :=
  ((c =? 32) || (c =? 9) || (c =? 10) || (c =? 13))%N.

Fixpoint skip_ws (s : ustring) : ustring :=
  match s with
  | c :: s' => if is_json_ws c then skip_ws s' else s
  | [] => []
  end.

Definition is_digit (c : N) : bool := ((48 <=? c) && (c <=? 57))%N.

Definition hex_digit (c : N) : option N :=
  (if (48 <=? c) && (c <=? 57) then Some (c - 48)
   else if (97 <=? c) && (c <=? 102) then Some (c - 87)
   else if (65 <=? c) && (c <=? 70) then Some (c - 55)
   else None)%N.

Definition hex4 (a b c d : N) : option N :=
  match hex_digit a, hex_digit b, hex_digit c, hex_digit d with
  | Some x, Some y, Some z, Some w => Some (((x * 16 + y) * 16 + z) * 16 + w)%N
  | _, _, _, _ => None
  end.

(** The one-character escapes: the character after the backslash, and the
    code unit it stands for. *)
Definition simple_escape (c : N) : option N :=
  (if c =? 34 then Some 34          (* a double quote *)
   else if c =? 92 then Some 92     (* a backslash *)
   else if c =? 47 then Some 47     (* a slash *)
   else if c =? 98 then Some 8      (* b: backspace *)
   else if c =? 102 then Some 12    (* f: form feed *)
   else if c =? 110 then Some 10    (* n: line feed *)
   else if c =? 114 then Some 13    (* r: carriage return *)
   else if c =? 116 then Some 9     (* t: tab *)
   else None)%N.

(** The characters of a string after its opening quote, up to and
    including the closing quote: the string's value and what follows. *)
Fixpoint parse_chars (s : ustring) : option (ustring * ustring) :=
  match s with
  | [] => None
  | c :: r =>
      if (c =? 34)%N then Some ([], r)
      else if (c =? 92)%N then
        match r with
        | [] => None
        | e :: r1 =>
            if (e =? 117)%N then            (* u and four hex digits *)
              match r1 with
              | a :: b :: c' :: d :: r2 =>
                  match hex4 a b c' d, parse_chars r2 with
                  | Some x, Some (v, rest) => Some (x :: v, rest)
                  | _, _ => None
                  end
              | _ => None
              end
            else
              match simple_escape e, parse_chars r1 with
              | Some x, Some (v, rest) => Some (x :: v, rest)
              | _, _ => None
              end
        end
      else if (c <? 32)%N then None
      else
        match parse_chars r with
        | Some (v, rest) => Some (c :: v, rest)
        | None => None
        end
  end.

Fixpoint span_digits (s : ustring) : ustring * ustring :=
  match s with
  | c :: s' =>
      if is_digit c then let (ds, rest) := span_digits s' in (c :: ds, rest)
      else ([], s)
  | [] => ([], [])
  end.

Definition digits_value (ds : ustring) : N :=
  fold_left (fun acc d => (10 * acc + (d - 48))%N) ds 0%N.

(** A number: an optional minus sign; an integer part, which is [0] or a
    non-zero digit followed by digits; an optional fraction, a point and
    one or more digits; an optional exponent, [e] or [E], an optional
    sign and one or more digits. *)
Definition parse_sign (s : ustring) : bool * ustring :=
  match s with
  | c :: r => if (c =? 45)%N then (true, r) else (false, s)
  | [] => (false, s)
  end.

Definition parse_int (s : ustring) : option (ustring * ustring) :=
  match s with
  | c :: r =>
      if (c =? 48)%N then Some ([c], r)
      else if is_digit c then Some (span_digits s)
      else None
  | [] => None
  end.

Definition parse_frac (s : ustring) : option (ustring * ustring) :=
  match s with
  | c :: r =>
      if (c =? 46)%N then
        match span_digits r with
        | ([], _) => None
        | (fd, r') => Some (fd, r')
        end
      else Some ([], s)
  | [] => Some ([], s)
  end.

Definition parse_exp_sign (s : ustring) : bool * ustring :=
  match s with
  | c :: r =>
      if (c =? 45)%N then (true, r)
      else if (c =? 43)%N then (false, r)
      else (false, s)
  | [] => (false, s)
  end.

Definition parse_exp (s : ustring) : option (Z * ustring) :=
  match s with
  | c :: r =>
      if (c =? 101)%N || (c =? 69)%N then
        let (eneg, r1) := parse_exp_sign r in
        match span_digits r1 with
        | ([], _) => None
        | (ed, r2) =>
            let e := Z.of_N (digits_value ed) in
            Some (if eneg then (- e)%Z else e, r2)
        end
      else Some (0%Z, s)
  | [] => Some (0%Z, s)
  end.

Definition parse_number (s : ustring) : option (number * ustring) :=
  let (neg, s1) := parse_sign s in
  match parse_int s1 with
  | None => None
  | Some (int, s2) =>
      match parse_frac s2 with
      | None => None
      | Some (frac, s3) =>
          match parse_exp s3 with
          | None => None
          | Some (e, s4) =>
              Some (mkNumber neg (digits_value (int ++ frac))
                      (e - Z.of_nat (length frac)), s4)
          end
      end
  end.

(** The result of a parser that runs on fuel. *)
Inductive presult (A : Type) : Type :=
| POk (a : A) (rest : ustring)
| PErr
| PFuel.
Arguments POk {A} a rest.
Arguments PErr {A}.
Arguments PFuel {A}.

Definition lit_true : ustring := Eval cbv in u "true".
Definition lit_false : ustring := Eval cbv in u "false".
Definition lit_null : ustring := Eval cbv in u "null".

Fixpoint parse_value (fuel : nat) (s : ustring) : presult JSValue :=
  match fuel with
  | O => PFuel
  | S f =>
      match skip_ws s with
      | [] => PErr
      | c :: r =>
          if (c =? 123)%N then                      (* { *)
            match skip_ws r with
            | [] => PErr
            | c1 :: r1 =>
                if (c1 =? 125)%N then POk (JObj []) r1
                else
                  match parse_members f (c1 :: r1) with
                  | POk ms rest => POk (JObj ms) rest
                  | PErr => PErr
                  | PFuel => PFuel
                  end
            end
          else if (c =? 91)%N then                  (* [ *)
            match skip_ws r with
            | [] => PErr
            | c1 :: r1 =>
                if (c1 =? 93)%N then POk (JArr []) r1
                else
                  match parse_elements f (c1 :: r1) with
                  | POk vs rest => POk (JArr vs) rest
                  | PErr => PErr
                  | PFuel => PFuel
                  end
            end
          else if (c =? 34)%N then
            match parse_chars r with
            | Some (v, rest) => POk (JStr v) rest
            | None => PErr
            end
          else if startsWith (c :: r) lit_true then
            POk (JBool true) (skipn 4 (c :: r))
          else if startsWith (c :: r) lit_false then
            POk (JBool false) (skipn 5 (c :: r))
          else if startsWith (c :: r) lit_null then
            POk JNull (skipn 4 (c :: r))
          else
            match parse_number (c :: r) with
            | Some (n, rest) => POk (JNum n) rest
            | None => PErr
            end
      end
  end

(** Values separated by commas, up to and including the closing bracket. *)
with parse_elements (fuel : nat) (s : ustring) : presult (list JSValue) :=
  match fuel with
  | O => PFuel
  | S f =>
      match parse_value f s with
      | POk v r =>
          match skip_ws r with
          | [] => PErr
          | c :: r1 =>
              if (c =? 44)%N then
                match parse_elements f r1 with
                | POk vs rest => POk (v :: vs) rest
                | PErr => PErr
                | PFuel => PFuel
                end
              else if (c =? 93)%N then POk [v] r1
              else PErr
          end
      | PErr => PErr
      | PFuel => PFuel
      end
  end

(** Members [key : value] separated by commas, up to and including the
    closing brace. *)
with parse_members (fuel : nat) (s : ustring)
  : presult (list (ustring * JSValue)) :=
  match fuel with
  | O => PFuel
  | S f =>
      match skip_ws s with
      | [] => PErr
      | c :: r =>
          if (c =? 34)%N then
            match parse_chars r with
            | None => PErr
            | Some (key, r1) =>
                match skip_ws r1 with
                | [] => PErr
                | c2 :: r2 =>
                    if (c2 =? 58)%N then
                      match parse_value f r2 with
                      | POk v r3 =>
                          match skip_ws r3 with
                          | [] => PErr
                          | c3 :: r4 =>
                              if (c3 =? 44)%N then
                                match parse_members f r4 with
                                | POk ms rest => POk ((key, v) :: ms) rest
                                | PErr => PErr
                                | PFuel => PFuel
                                end
                              else if (c3 =? 125)%N then POk [(key, v)] r4
                              else PErr
                          end
                      | PErr => PErr
                      | PFuel => PFuel
                      end
                    else PErr
                end
            end
          else PErr
      end
  end.

(** Fuel that never runs out on [s] (see [parse_value_fuel]). *)
Definition parse_fuel (s : ustring) : nat := 2 * length s + 1.

(** [JSON.parse(s)]: one value, white space around it, nothing else; a
    [SyntaxError] otherwise. *)
Definition JSON_parse (s : ustring) : completion JSValue :=
  match parse_value (parse_fuel s) s with
  | POk v rest =>
      match skip_ws rest with
      | [] => Normal v
      | _ :: _ => Throw SyntaxError
      end
  | PErr => Throw SyntaxError
  | PFuel => Throw SyntaxError
  end.

(** ** Operators on values *)

(** [ToBoolean]: what [if], [&&], [||] and [!] look at. *)
Definition truthy (v : JSValue) : bool :=
  match v with
  | JUndefined | JNull => false
  | JBool b => b
  | JNum n => negb (number_is_zero n)
  | JStr s => match s with [] => false | _ :: _ => true end
  | JArr _ | JObj _ => true
  end.

(** [v == null]: [null] or [undefined], where [?.] and [??] stop. *)
Definition nullish (v : JSValue) : bool :=
  match v with
  | JUndefined | JNull => true
  | _ => false
  end.

(** [v === "s"] *)
Definition str_eq (v : JSValue) (s : ustring) : bool :=
  match v with
  | JStr t => ustring_eqb t s
  | _ => false
  end.

(** [v === 0] *)
Definition is_zero (v : JSValue) : bool :=
  match v with
  | JNum n => number_is_zero n
  | _ => false
  end.

(** An object made by [JSON.parse] holds its members as own properties;
    of two members with one key the later one stays. *)
Fixpoint lookup (k : ustring) (props : list (ustring * JSValue))
  : option JSValue :=
  match props with
  | [] => None
  | (k', v) :: rest =>
      match lookup k rest with
      | Some v' => Some v'
      | None => if ustring_eqb k' k then Some v else None
      end
  end.

(** [v.name], for a property name that no built-in prototype defines and
    that is neither [length] nor an index: every name the program reads
    ([event], [data], [NewLine], [header], [namespace], [name], [payload],
    [is_final], [results], [text], [stdout], [exit_code]) is one.  Reading
    a property of [null] or [undefined] throws a [TypeError]. *)
Definition get (v : JSValue) (name : ustring) : completion JSValue :=
  match v with
  | JUndefined | JNull => Throw TypeError
  | JObj props =>
      match lookup name props with
      | Some x => Normal x
      | None => Normal JUndefined
      end
  | JBool _ | JNum _ | JStr _ | JArr _ => Normal JUndefined
  end.

(** [v?.name] *)
Definition get_opt (v : JSValue) (name : ustring) : JSValue :=
  match get v name with
  | Normal x => x
  | Throw _ => JUndefined
  end.

(** [v[0]]: the first element of an array, the first code unit of a
    string, the property named [0] of an object. *)
Definition get0 (v : JSValue) : completion JSValue :=
  match v with
  | JUndefined | JNull => Throw TypeError
  | JArr items => Normal (nth 0 items JUndefined)
  | JStr s => Normal (match s with c :: _ => JStr [c] | [] => JUndefined end)
  | JObj props =>
      match lookup [48%N] props with
      | Some x => Normal x
      | None => Normal JUndefined
      end
  | JBool _ | JNum _ => Normal JUndefined
  end.

(** [v?.[0]] *)
Definition get0_opt (v : JSValue) : JSValue :=
  match get0 v with
  | Normal x => x
  | Throw _ => JUndefined
  end.

(** ** [JSON.stringify] of the object literals of the program

    Their properties are strings and integer literals. *)

Inductive field : Type :=
| FStr (s : ustring)
| FInt (z : Z).

Definition hex_char (d : N) : N := (if d <? 10 then d + 48 else d + 87)%N.

(** [\u] and four lower-case hex digits. *)
Definition unicode_escape (c : N) : ustring :=
  [92; 117; hex_char (c / 4096 mod 16); hex_char (c / 256 mod 16);
   hex_char (c / 16 mod 16); hex_char (c mod 16)]%N.

Definition is_high_surrogate (c : N) : bool := ((55296 <=? c) && (c <=? 56319))%N.
Definition is_low_surrogate (c : N) : bool := ((56320 <=? c) && (c <=? 57343))%N.

(** The characters of a quoted string: the quote, the backslash and the
    control characters are escaped, and so is a surrogate without its
    partner. *)
Fixpoint quote_chars (s : ustring) : ustring :=
  match s with
  | [] => []
  | c :: r =>
      if (c =? 34)%N then [92; 34]%N ++ quote_chars r
      else if (c =? 92)%N then [92; 92]%N ++ quote_chars r
      else if (c =? 8)%N then [92; 98]%N ++ quote_chars r
      else if (c =? 12)%N then [92; 102]%N ++ quote_chars r
      else if (c =? 10)%N then [92; 110]%N ++ quote_chars r
      else if (c =? 13)%N then [92; 114]%N ++ quote_chars r
      else if (c =? 9)%N then [92; 116]%N ++ quote_chars r
      else if (c <? 32)%N then unicode_escape c ++ quote_chars r
      else if is_high_surrogate c then
        match r with
        | d :: r' =>
            if is_low_surrogate d then c :: d :: quote_chars r'
            else unicode_escape c ++ quote_chars r
        | [] => unicode_escape c
        end
      else if is_low_surrogate c then unicode_escape c ++ quote_chars r
      else c :: quote_chars r
  end.

Definition JSON_quote (s : ustring) : ustring :=
  [34%N] ++ quote_chars s ++ [34%N].

Definition stringify_field (f : field) : ustring :=
  match f with
  | FStr s => JSON_quote s
  | FInt z => u (NilZero.string_of_int (Z.to_int z))
  end.

Fixpoint stringify_members (ms : list (ustring * field)) : ustring :=
  match ms with
  | [] => []
  | [(k, f)] => JSON_quote k ++ [58%N] ++ stringify_field f
  | (k, f) :: rest =>
      JSON_quote k ++ [58%N] ++ stringify_field f ++ [44%N] ++ stringify_members rest
  end.

Definition JSON_stringify (ms : list (ustring * field)) : ustring :=
  [123%N] ++ stringify_members ms ++ [125%N].

End JS.
Export JS.

(* ================================================================== *)
(** * The world around the program *)

Module Runtime.

Inductive PlaybackStatus : Type := idle | playing | paused.

(** What the engine's message handler is given. *)
Record Message : Type := mkMessage {
  msg_text : JSValue;
  msg_id : ustring;
  msg_sender : ustring;
  msg_timestamp : Z }.

(** How the promise of [RustServer.run_shell] settles: fulfilled, with
    the output or with nothing, or rejected.  A command that runs out of
    time ends in one of the two. *)
Inductive BridgeReply : Type :=
| Resolved (out : option ustring)
| Rejected.

(** What the program does not decide: the native bridge, whose reply may
    depend on the commands sent before; the values that [randomUUID()]
    and [Date.now()] give; and the two functions imported from the package
    [@mi-gpt/utils/parse], which is not among the files of the program.
    [jsonEncode] takes an object literal and gives a string or
    [undefined]; [jsonDecode] takes any value and gives a value, and
    throws nothing (the handler reads its result through [?.]). *)
Record Env : Type := mkEnv {
  run_shell : list (ustring * Q) -> ustring -> Q -> BridgeReply;
  randomUUID : ustring;
  Date_now : Z;
  jsonEncode : list (ustring * field) -> option ustring;
  jsonDecode : JSValue -> JSValue }.

(** The state the program reads and writes: the one [SpeakerManager]
    object's [status], shared by the speaker and the engine; the commands
    sent to the bridge, with their timeouts, oldest first; the messages
    handed to [onMessage]; the lines given to [console.log]. *)
Record World : Type := mkWorld {
  status : PlaybackStatus;
  shell_calls : list (ustring * Q);
  messages : list Message;
  console : list (ustring * JSValue) }.

Definition initial_world : World := mkWorld idle [] [] [].

(** Computations: a state and error monad over [World]. *)
Definition M (A : Type) : Type := World -> completion A * World.

Definition ret {A} (a : A) : M A := fun w => (Normal a, w).

Definition throw {A} (e : JSError) : M A := fun w => (Throw e, w).

Definition lift {A} (c : completion A) : M A := fun w => (c, w).

Definition bind {A B} (m : M A) (k : A -> M B) : M B :=
  fun w =>
    match m w with
    | (Normal a, w') => k a w'
    | (Throw e, w') => (Throw e, w')
    end.

(** [try { body } catch (e) { handler }] *)
Definition try_catch {A} (body : M A) (handler : JSError -> M A) : M A :=
  fun w =>
    match body w with
    | (Normal a, w') => (Normal a, w')
    | (Throw e, w') => handler e w'
    end.

Declare Scope js_scope.
Delimit Scope js_scope with js.
Notation "x <- m ;; k" := (bind m (fun x => k))
  (at level 61, m at next level, right associativity) : js_scope.

Definition set_status (st : PlaybackStatus) : M unit :=
  fun w => (Normal tt, mkWorld st (shell_calls w) (messages w) (console w)).

Definition get_status : M PlaybackStatus :=
  fun w => (Normal (status w), w).

(** [await RustServer.run_shell(script, timeout)] *)
Definition RustServer_run_shell (env : Env) (script : ustring) (timeout : Q)
  : M (option ustring) :=
  fun w =>
    let w' := mkWorld (status w) (shell_calls w ++ [(script, timeout)])
                (messages w) (console w) in
    match run_shell env (shell_calls w) script timeout with
    | Resolved out => (Normal out, w')
    | Rejected => (Throw BridgeError, w')
    end.

(** [this.onMessage(msg)] of the engine *)
Definition onMessage (msg : Message) : M unit :=
  fun w => (Normal tt, mkWorld (status w) (shell_calls w) (messages w ++ [msg]) (console w)).

(** [console.log(label, v)] *)
Definition console_log (label : ustring) (v : JSValue) : M unit :=
  fun w => (Normal tt, mkWorld (status w) (shell_calls w) (messages w) (console w ++ [(label, v)])).

(** A value inside a template literal: [undefined] is written out. *)
Definition interpolate (v : option ustring) : ustring :=
  match v with
  | Some s => s
  | None => u "undefined"
  end.

End Runtime.
Export Runtime.

Local Open Scope js_scope.

(* ================================================================== *)
(** * speaker.ts *)

Module Speaker.

Definition removeThinkingTags (text : ustring) : ustring :=
  match text with
  | [] => text
  | _ :: _ =>
      let result := replace_all re_tags [] text in
      let result := replace_all re_block [] result in
      result
  end.

(** [runShell(script, options)]; [timeout] is [options?.timeout]. *)
Definition runShell (env : Env) (script : ustring) (timeout : option Q)
  : M JSValue :=
  let timeout := match timeout with Some t => t | None => (10 * 1000)%Q end in
  try_catch
    (res <- RustServer_run_shell env script timeout ;;
     match res with
     | Some ((_ :: _) as out) => lift (JSON_parse out)
     | Some [] | None => ret JUndefined
     end)
    (fun _ => ret JUndefined).

(** [x.includes(s)] for a value [x] that is not [null] or [undefined]:
    strings and arrays have the method, on the other values the call
    throws. *)
Definition call_includes (x : JSValue) (s : ustring) : completion bool :=
  match x with
  | JStr t => Normal (includes t s)
  | JArr items => Normal (existsb (fun v => str_eq v s) items)
  | _ => Throw TypeError
  end.

Definition probe_script : ustring :=
  Eval cbv in u "cat /proc/cpuinfo | grep Hardware | awk '{print $3}'".

Definition marker : ustring := Eval cbv in u "amlogic".

(** [res?.stdout?.toLowerCase()?.includes("amlogic")] *)
Definition isNewDevice (env : Env) : M JSValue :=
  res <- runShell env probe_script None ;;
  if nullish res then ret JUndefined
  else
    stdout <- lift (get res (u "stdout")) ;;
    if nullish stdout then ret JUndefined
    else
      match stdout with
      | JStr s => ret (JBool (includes (toLowerCase s) marker))
      | _ => throw TypeError
      end.

Record PlayOptions : Type := mkPlayOptions {
  opt_text : option ustring;
  opt_url : option ustring;
  opt_blocking : option bool }.

(** The default greeting, U+4F60 U+597D. *)
Definition greeting : ustring := [20320; 22909]%N.

(** [s || d] for an optional string. *)
Definition str_or (s : option ustring) (d : ustring) : ustring :=
  match s with
  | Some ((_ :: _) as t) => t
  | Some [] | None => d
  end.

Definition str_truthy (s : option ustring) : bool :=
  match s with
  | Some (_ :: _) => true
  | Some [] | None => false
  end.

(** [text ? removeThinkingTags(text) : text] *)
Definition cleanText (options : PlayOptions) : option ustring :=
  match opt_text options with
  | Some ((_ :: _) as t) => Some (removeThinkingTags t)
  | other => other
  end.

(** The timeout of [play], in milliseconds, in exact arithmetic. *)
Definition play_timeout (options : PlayOptions) : Q :=
  match opt_blocking options with
  | Some true =>
      match opt_text options with
      | Some ((_ :: _) as t) =>
          (Qmax 20 (inject_Z (Z.of_nat (length t)) * 0.15) * 1000)%Q
      | _ => (20 * 1000)%Q
      end
  | _ => (10 * 1000)%Q
  end.

(** The command of the new devices. *)
Definition new_command (options : PlayOptions) : ustring :=
  match opt_url options with
  | Some ((_ :: _) as url) =>
      u "curl '" ++ url ++ u "' | aplay -Dhw:0,0 -f S16_LE -c 1 -r 24000 -"
  | _ =>
      u "/usr/sbin/tts_play.sh '" ++ str_or (cleanText options) greeting ++ u "'"
  end.

(** The command of the older devices. *)
Definition legacy_command (env : Env) (options : PlayOptions) : ustring :=
  match opt_url options with
  | Some ((_ :: _) as url) =>
      u "ubus call mediaplayer player_play_url '"
      ++ interpolate (jsonEncode env [(u "url", FStr url); (u "type", FInt 1)])
      ++ u "'"
  | _ =>
      u "ubus call mibrain text_to_speech '"
      ++ interpolate
           (jsonEncode env
              [(u "text", FStr (str_or (cleanText options) greeting));
               (u "save", FInt 0)])
      ++ u "'"
  end.

Definition play (env : Env) (options : PlayOptions) : M bool :=
  let timeout := play_timeout options in
  newDevice <- isNewDevice env ;;
  if truthy newDevice then
    res <- runShell env (new_command options) (Some timeout) ;;
    (* res?.exit_code === 0 *)
    ret (is_zero (get_opt res (u "exit_code")))
  else
    res <- runShell env (legacy_command env options) (Some timeout) ;;
    (* res?.stdout.includes('"code": 0') ?? false *)
    if nullish res then ret false
    else
      stdout <- lift (get res (u "stdout")) ;;
      if nullish stdout then throw TypeError
      else lift (call_includes stdout (u "`code`: 0")).

Record DeviceInfo : Type := mkDeviceInfo { model : ustring; sn : ustring }.

Definition unknown : ustring := Eval cbv in u "unknown".

(** [x ?? "unknown"] for an optional string. *)
Definition or_unknown (x : option ustring) : ustring :=
  match x with
  | Some s => s
  | None => unknown
  end.

Definition device_script : ustring :=
  Eval cbv in u "echo $(micocfg_model) $(micocfg_sn)".

Definition getDevice (env : Env) : M DeviceInfo :=
  res <- runShell env device_script None ;;
  (* res?.stdout.trim().split(" ") *)
  info <- (if nullish res then ret None
           else
             stdout <- lift (get res (u "stdout")) ;;
             match stdout with
             | JStr s => ret (Some (split 32 (trim s)))
             | _ => throw TypeError
             end) ;;
  ret (mkDeviceInfo
         (or_unknown (match info with Some l => nth_error l 0 | None => None end))
         (or_unknown (match info with Some l => nth_error l 1 | None => None end))).

(** [res?.stdout.includes(s)]: [undefined] without a result; with one,
    the [stdout] must be there and have the method. *)
Definition stdout_includes (res : JSValue) (s : ustring) : M (option bool) :=
  if nullish res then ret None
  else
    stdout <- lift (get res (u "stdout")) ;;
    if nullish stdout then throw TypeError
    else
      b <- lift (call_includes stdout s) ;;
      ret (Some b).

(** What [if] makes of a boolean that may be [undefined]. *)
Definition holds (b : option bool) : bool :=
  match b with
  | Some true => true
  | Some false | None => false
  end.

(** A parameter with a default value. *)
Definition or_default (d : bool) (x : option bool) : bool :=
  match x with
  | Some b => b
  | None => d
  end.

Definition status_script : ustring := Eval cbv in u "mphelper mute_stat".

Definition getPlaying (env : Env) (sync : option bool) : M PlaybackStatus :=
  _ <- (if or_default false sync then
          res <- runShell env status_script None ;;
          one <- stdout_includes res (u "1") ;;
          if holds one then set_status playing
          else
            two <- stdout_includes res (u "2") ;;
            if holds two then set_status paused else ret tt
        else ret tt) ;;
  get_status.

Definition code_marker : ustring := Eval cbv in u "`code`: 0".

Definition setPlaying (env : Env) (playing : option bool) : M (option bool) :=
  res <- runShell env
           (if or_default true playing then u "mphelper play"
            else u "mphelper pause") None ;;
  stdout_includes res code_marker.

(** The script that takes the wake-up back: a template literal of five
    lines, the first of them empty. *)
Definition unwake_script : ustring :=
  [10%N] ++ u "        ubus call pnshelper event_notify '{`src`:3, `event`:7}'"
  ++ [10%N] ++ u "        sleep 0.1"
  ++ [10%N] ++ u "        ubus call pnshelper event_notify '{`src`:3, `event`:8}'"
  ++ [10%N] ++ u "    ".

(** [wakeUp(awake, options)]; [silent] is [options?.silent]. *)
Definition wakeUp (env : Env) (awake : option bool) (silent : option bool)
  : M (option bool) :=
  let silent := or_default false silent in
  let command :=
    if or_default true awake then
      if silent then u "ubus call pnshelper event_notify '{`src`:1,`event`:0}'"
      else u "ubus call pnshelper event_notify '{`src`:0,`event`:0}'"
    else unwake_script in
  res <- runShell env command None ;;
  stdout_includes res code_marker.

Definition abort_script : ustring :=
  Eval cbv in u "/etc/init.d/mico_aivs_lab restart >/dev/null 2>&1".

Definition abortXiaoAI (env : Env) : M bool :=
  res <- runShell env abort_script None ;;
  ret (is_zero (get_opt res (u "exit_code"))).

Definition boot_script : ustring := Eval cbv in u "echo $(fw_env -g boot_part)".

(** [res?.stdout.trim()] *)
Definition getBoot (env : Env) : M (option ustring) :=
  res <- runShell env boot_script None ;;
  if nullish res then ret None
  else
    stdout <- lift (get res (u "stdout")) ;;
    match stdout with
    | JStr s => ret (Some (trim s))
    | _ => throw TypeError
    end.

Inductive BootPart : Type := boot0 | boot1.

Definition boot_name (b : BootPart) : ustring :=
  match b with
  | boot0 => u "boot0"
  | boot1 => u "boot1"
  end.

Definition setBoot (env : Env) (boot_part : BootPart) : M (option bool) :=
  res <- runShell env
           (u "fw_env -s boot_part " ++ boot_name boot_part
            ++ u " >/dev/null 2>&1 && echo $(fw_env -g boot_part)") None ;;
  stdout_includes res (boot_name boot_part).

Inductive MicStatus : Type := on | off.

Definition mic_script : ustring :=
  Eval cbv in u "[ ! -f /tmp/mipns/mute ] && echo on || echo off".

Definition getMic (env : Env) : M MicStatus :=
  res <- runShell env mic_script None ;;
  found <- stdout_includes res (u "on") ;;
  ret (if holds found then on else off).

Definition compact_code_marker : ustring := Eval cbv in u "`code`:0".

Definition setMic (env : Env) (turn_on : option bool) : M (option bool) :=
  res <- runShell env
           (if or_default true turn_on then
              u "ubus -t1 -S call pnshelper event_notify '{`src`:3, `event`:7}' 2>&1"
            else
              u "ubus -t1 -S call pnshelper event_notify '{`src`:3, `event`:8}' 2>&1")
           None ;;
  stdout_includes res compact_code_marker.

End Speaker.

(* ================================================================== *)
(** * xiaoai.ts *)

Module XiaoAI.

Definition removeThinkingTags (text : ustring) : ustring :=
  let result := replace_all re_tags [] text in
  let result := replace_all re_block_lines [] result in
  let result := replace_all re_block [] result in
  result.

(** The label of the wake-word log line. *)
Definition kws_label : ustring :=
  [55357; 56613; 32; 21796; 37266; 35789; 35782; 21035]%N.

(** The test of the recognition result:
    [line?.header?.namespace === "SpeechRecognizer" &&
     line?.header?.name === "RecognizeResult" &&
     line?.payload?.is_final && line?.payload?.results?.[0]?.text]. *)
Definition is_final_result (line : JSValue) : bool :=
  str_eq (get_opt (get_opt line (u "header")) (u "namespace")) (u "SpeechRecognizer")
  && str_eq (get_opt (get_opt line (u "header")) (u "name")) (u "RecognizeResult")
  && truthy (get_opt (get_opt line (u "payload")) (u "is_final"))
  && truthy (get_opt (get0_opt (get_opt (get_opt line (u "payload")) (u "results"))) (u "text")).

Definition onEvent (env : Env) (event : ustring) : M unit :=
  e <- lift (JSON_parse event) ;;
  kind <- lift (get e (u "event")) ;;
  if str_eq kind (u "playing") then
    data <- lift (get e (u "data")) ;;
    set_status
      (if str_eq data (u "Playing") then playing
       else if str_eq data (u "Paused") then paused
       else idle)
  else
    (* e.event === "instruction" && e.data.NewLine *)
    instruction <-
      (if str_eq kind (u "instruction") then
         data <- lift (get e (u "data")) ;;
         newLine <- lift (get data (u "NewLine")) ;;
         ret (truthy newLine)
       else ret false) ;;
    if instruction then
      data <- lift (get e (u "data")) ;;
      newLine <- lift (get data (u "NewLine")) ;;
      let line := jsonDecode env newLine in
      if is_final_result line then
        payload <- lift (get line (u "payload")) ;;
        results <- lift (get payload (u "results")) ;;
        first <- lift (get0 results) ;;
        text <- lift (get first (u "text")) ;;
        onMessage (mkMessage text (randomUUID env) (u "user") (Date_now env))
      else ret tt
    else if str_eq kind (u "kws") then
      keyword <- lift (get e (u "data")) ;;
      console_log kws_label keyword
    else ret tt.

(** [processAIResponse(response)].  [parent] is [super.processAIResponse],
    which the base class may not have. *)
Definition processAIResponse (parent : option (ustring -> M ustring))
  (response : ustring) : M ustring :=
  processedResponse <-
    match parent with
    | Some hook =>
        r <- hook response ;;
        ret (match r with [] => response | _ :: _ => r end)
    | None => ret response
    end ;;
  ret (removeThinkingTags processedResponse).



End XiaoAI.

(* ================================================================== *)
(** * The sample configuration: its message hook *)

Module Config.

(** What the hook answers: a text to speak, a url to play, that it has
    dealt with the message, or nothing. *)
Inductive Reply : Type :=
| ReplyText (text : ustring)
| ReplyUrl (url : ustring)
| Handled
| NoReply.

(** The three test phrases, and the sentence and the sound they ask for. *)
Definition say_text : ustring := [27979; 35797; 25773; 25918; 25991; 23383]%N.
Definition say_music : ustring := [27979; 35797; 25773; 25918; 38899; 20048]%N.
Definition say_more : ustring := [27979; 35797; 20854; 20182; 33021; 21147]%N.

Definition nice_to_meet_you : ustring :=
  [20320; 22909; 65292; 24456; 39640; 20852; 35748; 35782; 20320; 65281]%N.

Definition sample_url : ustring :=
  Eval cbv in
    u "https://sditdemo.github.io/sditdemo/static/audio_sample/rebuttal/sec1/prompt.wav".

(** [onMessage(engine, { text })]; the engine's speaker is the one
    [SpeakerManager], and [sleep] comes from the package [@mi-gpt/utils],
    so it is a parameter here. *)
Definition onMessage (env : Env) (sleep : Z -> M unit) (text : JSValue) :
  M Reply :=
  if str_eq text say_text then ret (ReplyText nice_to_meet_you)
  else if str_eq text say_music then ret (ReplyUrl sample_url)
  else if str_eq text say_more then
    _ <- Speaker.abortXiaoAI env ;;
    _ <- sleep 2000%Z ;;
    _ <- Speaker.play env
           (Speaker.mkPlayOptions (Some nice_to_meet_you) None (Some true)) ;;
    _ <- Speaker.play env
           (Speaker.mkPlayOptions None (Some sample_url) None) ;;
    ret Handled
  else ret NoReply.

End Config.

(* ================================================================== *)
(** * The vocabulary of the statements *)

(** The timeout a call of [runShell] passes on. *)
Definition timeout_of (timeout : option Q) : Q :=
  match timeout with
  | Some t => t
  | None => (10 * 1000)%Q
  end.

(** What the bridge answers to a call of [runShell] made in world [w]. *)
Definition reply_of (env : Env) (script : ustring) (timeout : option Q)
  (w : World) : BridgeReply :=
  run_shell env (shell_calls w) script (timeout_of timeout).

(** The world after one command was sent. *)
Definition sent (w : World) (script : ustring) (timeout : option Q) : World :=
  mkWorld (status w) (shell_calls w ++ [(script, timeout_of timeout)])
    (messages w) (console w).

(** The value [runShell] resolves to, by the bridge's reply. *)
Definition resolved_value (reply : BridgeReply) : JSValue :=
  match reply with
  | Resolved (Some out) =>
      match JSON_parse out with
      | Normal v => v
      | Throw _ => JUndefined
      end
  | Resolved None => JUndefined
  | Rejected => JUndefined
  end.

(** A value with the three fields of a [CommandResult]. *)
Definition is_CommandResult (v : JSValue) : Prop :=
  exists stdout stderr code,
    get v (u "stdout") = Normal (JStr stdout)
    /\ get v (u "stderr") = Normal (JStr stderr)
    /\ get v (u "exit_code") = Normal (JNum code).

(** The status that a playback event with payload [data] stands for. *)
Definition status_of_data (data : JSValue) : PlaybackStatus :=
  match data with
  | JStr s =>
      if ustring_eqb s (u "Playing") then playing
      else if ustring_eqb s (u "Paused") then paused
      else idle
  | _ => idle
  end.

(** The decoder of the examples: [JSON.parse] of a string, and
    [undefined] when that throws and for every other argument. *)
Definition decode_text (json : JSValue) : JSValue :=
  match json with
  | JStr s =>
      match JSON_parse s with
      | Normal v => v
      | Throw _ => JUndefined
      end
  | _ => JUndefined
  end.

(** An environment for the examples: a bridge that gives every command
    the same [reply], an encoder that is [JSON.stringify] and the decoder
    above. *)
Definition sample_env (reply : BridgeReply) : Env :=
  mkEnv (fun _ _ _ => reply) (u "0000-0001") 1700000000000%Z
    (fun obj => Some (JSON_stringify obj)) decode_text.

(** The utterance handed to the message handler. *)
Definition utterance (env : Env) (text : JSValue) : Message :=
  mkMessage text (randomUUID env) (u "user") (Date_now env).

(** The world after [msgs] were handed to the message handler. *)
Definition forwarded (w : World) (msgs : list Message) : World :=
  mkWorld (status w) (shell_calls w) (messages w ++ msgs) (console w).

(** The event of the end-to-end example: a recognition result with the
    text [turn on the light], final or not. *)
Definition recognition_event (final : bool) : ustring :=
  u "{`event`:`instruction`,`data`:{`NewLine`:`{\`header\`:{\`namespace\`:\`SpeechRecognizer\`,\`name\`:\`RecognizeResult\`},\`payload\`:{\`is_final\`:"
  ++ (if final then u "true" else u "false")
  ++ u ",\`results\`:[{\`text\`:\`turn on the light\`}]}}`}}".

(** The events the handler acts on: a playback event, a wake-word event,
    and an instruction event whose [NewLine] is truthy and decodes to a
    final recognition result with text. *)
Definition recognized (env : Env) (e : JSValue) : bool :=
  let kind := get_opt e (u "event") in
  let newLine := get_opt (get_opt e (u "data")) (u "NewLine") in
  str_eq kind (u "playing")
  || str_eq kind (u "kws")
  || (str_eq kind (u "instruction") && truthy newLine
      && XiaoAI.is_final_result (jsonDecode env newLine)).

(** The ASCII capitals folded to their small letters. *)
Definition fold_case (c : N) : N :=
  if ((65 <=? c) && (c <=? 90))%N then (c + 32)%N else c.

(** [s] contains [m] as a substring, letter case ignored. *)
Definition contains_ignoring_case (s m : ustring) : Prop :=
  exists pre mid post : ustring,
    s = pre ++ mid ++ post /\ map fold_case mid = map fold_case m.

(** The answer of a new device to the probe. *)
Definition amlogic_reply : BridgeReply :=
  Resolved (Some (u "{`stdout`:`Amlogic\n`,`stderr`:``,`exit_code`:0}")).

(** A command that printed nothing, and one that printed a model and a
    serial number. *)
Definition empty_reply : BridgeReply :=
  Resolved (Some (u "{`stdout`:``,`stderr`:``,`exit_code`:0}")).

Definition model_reply : BridgeReply :=
  Resolved (Some (u "{`stdout`:`model123 SN456\n`,`stderr`:``,`exit_code`:0}")).

(** The object that the older devices are sent when the greeting is to
    be spoken, and the two commands that speak it. *)
Definition greeting_object : list (ustring * field) :=
  [(u "text", FStr Speaker.greeting); (u "save", FInt 0)].

Definition greeting_command : ustring :=
  u "/usr/sbin/tts_play.sh '" ++ Speaker.greeting ++ u "'".

Definition greeting_legacy_command : ustring :=
  u "ubus call mibrain text_to_speech '{`text`:`" ++ Speaker.greeting
  ++ u "`,`save`:0}'".

(** Text without the character [<]. *)
Definition plain (s : ustring) : Prop := Forall (fun c => c <> 60%N) s.

(** A pattern whose every match begins with [<]. *)
Definition starts_with_lt (r : regex) : Prop :=
  exec_at r [] = None
  /\ forall c t, c <> 60%N -> exec_at r (c :: t) = None.

(** [a] is [b] with some characters deleted. *)
Inductive subsequence : ustring -> ustring -> Prop :=
| sub_nil : subsequence [] []
| sub_keep (c : N) (a b : ustring) : subsequence a b -> subsequence (c :: a) (c :: b)
| sub_drop (c : N) (a b : ustring) : subsequence a b -> subsequence a (c :: b).

(** Text that contains neither delimiter. *)
Definition delimiter_free (s : ustring) : Prop :=
  includes s open_tag = false /\ includes s close_tag = false.

(** A bridge that gives every command the result [res]. *)
Definition bridge_answers (env : Env) (res : JSValue) : Prop :=
  forall calls script timeout,
    resolved_value (run_shell env calls script timeout) = res.

(** A result as [runShell] promises it: none, or one whose [stdout] is a
    text. *)
Definition well_typed (v : JSValue) : Prop :=
  nullish v = true \/ exists s, get v (u "stdout") = Normal (JStr s).

Definition well_typed_bridge (env : Env) : Prop :=
  forall calls script timeout,
    well_typed (resolved_value (run_shell env calls script timeout)).

(** The commands of the operations that choose between two or three. *)
Definition playing_script (playing : option bool) : ustring :=
  if Speaker.or_default true playing then u "mphelper play"
  else u "mphelper pause".

Definition wake_script (awake silent : option bool) : ustring :=
  if Speaker.or_default true awake then
    if Speaker.or_default false silent
    then u "ubus call pnshelper event_notify '{`src`:1,`event`:0}'"
    else u "ubus call pnshelper event_notify '{`src`:0,`event`:0}'"
  else Speaker.unwake_script.

Definition set_boot_script (b : Speaker.BootPart) : ustring :=
  u "fw_env -s boot_part " ++ Speaker.boot_name b
  ++ u " >/dev/null 2>&1 && echo $(fw_env -g boot_part)".

Definition mic_switch_script (turn_on : option bool) : ustring :=
  if Speaker.or_default true turn_on then
    u "ubus -t1 -S call pnshelper event_notify '{`src`:3, `event`:7}' 2>&1"
  else
    u "ubus -t1 -S call pnshelper event_notify '{`src`:3, `event`:8}' 2>&1".

(** The command [play] sends after the probe said [newDevice]. *)
Definition play_command (env : Env) (options : Speaker.PlayOptions)
  (newDevice : bool) : ustring :=
  if newDevice then Speaker.new_command options
  else Speaker.legacy_command env options.

(** The world with another status. *)
Definition with_status (w : World) (st : PlaybackStatus) : World :=
  mkWorld st (shell_calls w) (messages w) (console w).

(** The status that a synchronized read takes from the output [t]. *)
Definition status_of_output (t : ustring) (old : PlaybackStatus) : PlaybackStatus :=
  if includes t (u "1") then playing
  else if includes t (u "2") then paused
  else old.

(** A word as the shell prints it: not empty, no white space in it. *)
Definition token (x : ustring) : Prop :=
  x <> [] /\ Forall (fun c => is_space c = false) x.

(** The text of a recognition result, [line.payload.results[0].text]. *)
Definition recognized_text (line : JSValue) : JSValue :=
  get_opt (get0_opt (get_opt (get_opt line (u "payload")) (u "results")))
    (u "text").

(** The world after a line was logged. *)
Definition logged (w : World) (label : ustring) (v : JSValue) : World :=
  mkWorld (status w) (shell_calls w) (messages w) (console w ++ [(label, v)]).

(** What [onEvent] does with an event that [JSON.parse] has read. *)
Definition handled (env : Env) (e : JSValue) (w : World)
  : completion unit * World :=
  if nullish e then (Throw TypeError, w)
  else
    let kind := get_opt e (u "event") in
    let data := get_opt e (u "data") in
    let newLine := get_opt data (u "NewLine") in
    if str_eq kind (u "playing") then
      (Normal tt, with_status w (status_of_data data))
    else if str_eq kind (u "instruction") then
      if nullish data then (Throw TypeError, w)
      else if truthy newLine && XiaoAI.is_final_result (jsonDecode env newLine)
      then (Normal tt,
            forwarded w [utterance env (recognized_text (jsonDecode env newLine))])
      else (Normal tt, w)
    else if str_eq kind (u "kws") then
      (Normal tt, logged w XiaoAI.kws_label data)
    else (Normal tt, w).

(** A recognition result whose [is_final] is [1] and whose text is the
    number [42]. *)
Definition numeric_text_event : ustring :=
  u "{`event`:`instruction`,`data`:{`NewLine`:`{\`header\`:{\`namespace\`:\`SpeechRecognizer\`,\`name\`:\`RecognizeResult\`},\`payload\`:{\`is_final\`:1,\`results\`:[{\`text\`:42}]}}`}}".

(** The two calls of [play] in the sample hook. *)
Definition greet_options : Speaker.PlayOptions :=
  Speaker.mkPlayOptions (Some Config.nice_to_meet_you) None (Some true).

Definition url_options : Speaker.PlayOptions :=
  Speaker.mkPlayOptions None (Some Config.sample_url) None.

(** How many single quotes a text has. *)
Definition quotes (s : ustring) : nat := count_occ N.eq_dec s 39%N.

(** A [sleep] that waits and does nothing else. *)
Definition waits (sleep : Z -> M unit) : Prop :=
  forall ms w, sleep ms w = (Normal tt, w).

Definition sample_sleep (ms : Z) : M unit := ret tt.

(* ================================================================== *)
(** * Properties of strings *)

Lemma ustring_eqb_eq (a b : ustring) : ustring_eqb a b = true <-> a = b.
Proof.
  revert b. induction a as [|x a IH]; intros [|y b]; cbn; split;
    try discriminate; try reflexivity.
  - intros H. apply andb_true_iff in H as [H1 H2].
    apply N.eqb_eq in H1. apply IH in H2. congruence.
  - intros H. injection H as -> ->. rewrite N.eqb_refl. cbn.
    apply IH. reflexivity.
Qed.

Lemma ustring_eqb_refl (a : ustring) : ustring_eqb a a = true.
Proof. apply ustring_eqb_eq. reflexivity. Qed.

Lemma startsWith_app (s m : ustring) :
  startsWith s m = true <-> exists post, s = m ++ post.
Proof.
  revert s. induction m as [|y m IH]; intros s; cbn.
  - split; [intros _; exists s; reflexivity | reflexivity].
  - destruct s as [|x s]; cbn.
    + split; [discriminate | intros [post E]; discriminate E].
    + split.
      * intros H. apply andb_true_iff in H as [H1 H2].
        apply N.eqb_eq in H1. apply IH in H2 as [post ->].
        exists post. congruence.
      * intros [post E]. injection E as -> ->.
        rewrite N.eqb_refl. cbn. apply IH. exists post. reflexivity.
Qed.

Lemma includes_app (s m : ustring) :
  includes s m = true <-> exists pre post, s = pre ++ m ++ post.
Proof.
  induction s as [|x s IH].
  - cbn. rewrite orb_false_r. split.
    + intros H. apply startsWith_app in H as [post E].
      exists [], post. exact E.
    + intros (pre & post & E). apply startsWith_app.
      destruct pre as [|p pre]; [exists post; exact E | discriminate E].
  - cbn [includes]. rewrite orb_true_iff. split.
    + intros [H | H].
      * apply startsWith_app in H as [post E]. exists [], post. exact E.
      * apply IH in H as (pre & post & ->). exists (x :: pre), post. reflexivity.
    + intros (pre & post & E). destruct pre as [|p pre].
      * left. apply startsWith_app. exists post. exact E.
      * right. apply IH. injection E as _ ->. exists pre, post. reflexivity.
Qed.

(* ================================================================== *)
(** * The fuel of the JSON parser never runs out *)

Lemma skip_ws_length (s : ustring) : length (skip_ws s) <= length s.
Proof.
  induction s as [|c s IH]; cbn; [lia|].
  destruct (is_json_ws c); cbn; lia.
Qed.

Lemma parse_chars_length_aux (n : nat) :
  forall s v rest,
    length s <= n -> parse_chars s = Some (v, rest) -> length rest < length s.
Proof.
  induction n as [|n IH]; intros s v rest Ln E.
  - destruct s; [discriminate E | cbn in Ln; lia].
  - destruct s as [|c r]; [discriminate E|].
    cbn [parse_chars] in E. cbn [length] in *.
    destruct (c =? 34)%N.
    { injection E as _ <-. lia. }
    destruct (c =? 92)%N.
    { destruct r as [|e r1]; [discriminate E|].
      destruct (e =? 117)%N.
      - destruct r1 as [|a [|b [|c' [|d r2]]]]; try discriminate E.
        destruct (hex4 a b c' d); [|discriminate E].
        destruct (parse_chars r2) as [[v' rest']|] eqn:E2; [|discriminate E].
        injection E as _ <-.
        apply IH in E2; cbn [length] in *; lia.
      - destruct (simple_escape e); [|discriminate E].
        destruct (parse_chars r1) as [[v' rest']|] eqn:E2; [|discriminate E].
        injection E as _ <-.
        apply IH in E2; cbn [length] in *; lia. }
    destruct (c <? 32)%N; [discriminate E|].
    destruct (parse_chars r) as [[v' rest']|] eqn:E2; [|discriminate E].
    injection E as _ <-.
    apply IH in E2; lia.
Qed.

Lemma parse_chars_length (s v rest : ustring) :
  parse_chars s = Some (v, rest) -> length rest < length s.
Proof. apply (parse_chars_length_aux (length s)). lia. Qed.

Lemma span_digits_length (s : ustring) :
  length (snd (span_digits s)) <= length s.
Proof.
  induction s as [|c s IH]; cbn; [lia|].
  destruct (is_digit c); cbn; [|lia].
  destruct (span_digits s) as [ds rest]. cbn in *. lia.
Qed.

Lemma span_digits_length' (s ds rest : ustring) :
  span_digits s = (ds, rest) -> length rest <= length s.
Proof.
  intros E. pose proof (span_digits_length s) as L. rewrite E in L. exact L.
Qed.

Lemma parse_sign_length (s s1 : ustring) (b : bool) :
  parse_sign s = (b, s1) -> length s1 <= length s.
Proof.
  unfold parse_sign. destruct s as [|c r]; [intros E; injection E as _ <-; lia|].
  destruct (c =? 45)%N; intros E; injection E as _ <-; cbn; lia.
Qed.

Lemma parse_int_length (s ds rest : ustring) :
  parse_int s = Some (ds, rest) -> length rest < length s.
Proof.
  unfold parse_int. destruct s as [|c r]; [discriminate|].
  destruct (c =? 48)%N.
  { intros E. injection E as _ <-. cbn. lia. }
  destruct (is_digit c) eqn:D; [|discriminate].
  cbn [span_digits]. rewrite D.
  destruct (span_digits r) as [ds' rest'] eqn:S.
  intros E. injection E as _ <-.
  apply span_digits_length' in S. cbn. lia.
Qed.

Lemma parse_frac_length (s ds rest : ustring) :
  parse_frac s = Some (ds, rest) -> length rest <= length s.
Proof.
  unfold parse_frac. destruct s as [|c r]; [intros E; injection E as _ <-; lia|].
  destruct (c =? 46)%N.
  - destruct (span_digits r) as [[|d fd] r'] eqn:S; [discriminate|].
    intros E. injection E as _ <-. apply span_digits_length' in S. cbn. lia.
  - intros E. injection E as _ <-. lia.
Qed.

Lemma parse_exp_sign_length (s s1 : ustring) (b : bool) :
  parse_exp_sign s = (b, s1) -> length s1 <= length s.
Proof.
  unfold parse_exp_sign.
  destruct s as [|c r]; [intros E; injection E as _ <-; lia|].
  destruct (c =? 45)%N; [intros E; injection E as _ <-; cbn; lia|].
  destruct (c =? 43)%N; intros E; injection E as _ <-; cbn; lia.
Qed.

Lemma parse_exp_length (s rest : ustring) (e : Z) :
  parse_exp s = Some (e, rest) -> length rest <= length s.
Proof.
  unfold parse_exp. destruct s as [|c r]; [intros E; injection E as _ <-; lia|].
  destruct ((c =? 101)%N || (c =? 69)%N).
  - destruct (parse_exp_sign r) as [eneg r1] eqn:Sg.
    destruct (span_digits r1) as [[|d ed] r2] eqn:S; [discriminate|].
    intros E. injection E as _ <-.
    apply parse_exp_sign_length in Sg. apply span_digits_length' in S.
    cbn. lia.
  - intros E. injection E as _ <-. lia.
Qed.

Lemma parse_number_length (s rest : ustring) (n : number) :
  parse_number s = Some (n, rest) -> length rest < length s.
Proof.
  unfold parse_number.
  destruct (parse_sign s) as [neg s1] eqn:E1.
  destruct (parse_int s1) as [[int s2]|] eqn:E2; [|discriminate].
  destruct (parse_frac s2) as [[frac s3]|] eqn:E3; [|discriminate].
  destruct (parse_exp s3) as [[e s4]|] eqn:E4; [|discriminate].
  intros E. injection E as _ <-.
  apply parse_sign_length in E1. apply parse_int_length in E2.
  apply parse_frac_length in E3. apply parse_exp_length in E4. lia.
Qed.

Lemma startsWith_skipn_length (s m : ustring) :
  startsWith s m = true -> m <> [] ->
  length (skipn (length m) s) < length s.
Proof.
  intros H Hm. apply startsWith_app in H as [post ->].
  rewrite skipn_app, skipn_all, Nat.sub_diag. cbn.
  rewrite length_app. destruct m; [contradiction|]. cbn. lia.
Qed.

(** Every parser that succeeds has read at least one character. *)
Lemma parse_consumes (fuel : nat) :
  (forall s v rest, parse_value fuel s = POk v rest -> length rest < length s)
  /\ (forall s vs rest, parse_elements fuel s = POk vs rest -> length rest < length s)
  /\ (forall s ms rest, parse_members fuel s = POk ms rest -> length rest < length s).
Proof.
  induction fuel as [|f (IHv & IHe & IHm)].
  - repeat split; intros; discriminate.
  - split; [|split].
    + intros s v rest E. cbn [parse_value] in E.
      destruct (skip_ws s) as [|c r] eqn:W; [discriminate E|].
      pose proof (skip_ws_length s) as Ls. rewrite W in Ls. cbn [length] in Ls.
      destruct (c =? 123)%N.
      { destruct (skip_ws r) as [|c1 r1] eqn:W1; [discriminate E|].
        pose proof (skip_ws_length r) as Lr. rewrite W1 in Lr. cbn [length] in Lr.
        destruct (c1 =? 125)%N; [injection E as _ <-; lia|].
        destruct (parse_members f (c1 :: r1)) as [ms rest'| |] eqn:Pm;
          try discriminate E.
        injection E as _ <-. apply IHm in Pm. cbn [length] in Pm. lia. }
      destruct (c =? 91)%N.
      { destruct (skip_ws r) as [|c1 r1] eqn:W1; [discriminate E|].
        pose proof (skip_ws_length r) as Lr. rewrite W1 in Lr. cbn [length] in Lr.
        destruct (c1 =? 93)%N; [injection E as _ <-; lia|].
        destruct (parse_elements f (c1 :: r1)) as [vs rest'| |] eqn:Pe;
          try discriminate E.
        injection E as _ <-. apply IHe in Pe. cbn [length] in Pe. lia. }
      destruct (c =? 34)%N.
      { destruct (parse_chars r) as [[x rest']|] eqn:Pc; [|discriminate E].
        injection E as _ <-. apply parse_chars_length in Pc. lia. }
      destruct (startsWith (c :: r) lit_true) eqn:St.
      { injection E as _ <-.
        apply (startsWith_skipn_length _ lit_true) in St; [|discriminate].
        change (length lit_true) with 4 in St. cbn [length skipn] in *. lia. }
      destruct (startsWith (c :: r) lit_false) eqn:Sf.
      { injection E as _ <-.
        apply (startsWith_skipn_length _ lit_false) in Sf; [|discriminate].
        change (length lit_false) with 5 in Sf. cbn [length skipn] in *. lia. }
      destruct (startsWith (c :: r) lit_null) eqn:Sn.
      { injection E as _ <-.
        apply (startsWith_skipn_length _ lit_null) in Sn; [|discriminate].
        change (length lit_null) with 4 in Sn. cbn [length skipn] in *. lia. }
      destruct (parse_number (c :: r)) as [[n rest']|] eqn:Pn; [|discriminate E].
      injection E as _ <-. apply parse_number_length in Pn. cbn [length] in Pn. lia.
    + intros s vs rest E. cbn [parse_elements] in E.
      destruct (parse_value f s) as [v r| |] eqn:Pv; try discriminate E.
      apply IHv in Pv.
      destruct (skip_ws r) as [|c r1] eqn:W; [discriminate E|].
      pose proof (skip_ws_length r) as Lr. rewrite W in Lr. cbn [length] in Lr.
      destruct (c =? 44)%N.
      { destruct (parse_elements f r1) as [vs' rest'| |] eqn:Pe; try discriminate E.
        injection E as _ <-. apply IHe in Pe. lia. }
      destruct (c =? 93)%N; [|discriminate E].
      injection E as _ <-. lia.
    + intros s ms rest E. cbn [parse_members] in E.
      destruct (skip_ws s) as [|c r] eqn:W; [discriminate E|].
      pose proof (skip_ws_length s) as Ls. rewrite W in Ls. cbn [length] in Ls.
      destruct (c =? 34)%N; [|discriminate E].
      destruct (parse_chars r) as [[key r1]|] eqn:Pc; [|discriminate E].
      apply parse_chars_length in Pc.
      destruct (skip_ws r1) as [|c2 r2] eqn:W1; [discriminate E|].
      pose proof (skip_ws_length r1) as L1. rewrite W1 in L1. cbn [length] in L1.
      destruct (c2 =? 58)%N; [|discriminate E].
      destruct (parse_value f r2) as [v r3| |] eqn:Pv; try discriminate E.
      apply IHv in Pv.
      destruct (skip_ws r3) as [|c3 r4] eqn:W3; [discriminate E|].
      pose proof (skip_ws_length r3) as L3. rewrite W3 in L3. cbn [length] in L3.
      destruct (c3 =? 44)%N.
      { destruct (parse_members f r4) as [ms' rest'| |] eqn:Pm; try discriminate E.
        injection E as _ <-. apply IHm in Pm. lia. }
      destruct (c3 =? 125)%N; [|discriminate E].
      injection E as _ <-. lia.
Qed.

(** With fuel above twice the length of the text, no parser runs out. *)
Lemma parse_fuel_enough (fuel : nat) :
  (forall s, 2 * length s + 1 <= fuel -> parse_value fuel s <> PFuel)
  /\ (forall s, 2 * length s + 2 <= fuel -> parse_elements fuel s <> PFuel)
  /\ (forall s, 2 * length s + 2 <= fuel -> parse_members fuel s <> PFuel).
Proof.
  induction fuel as [|f (IHv & IHe & IHm)].
  - repeat split; intros s L; lia.
  - destruct (parse_consumes f) as (Cv & Ce & Cm).
    split; [|split].
    + intros s L. cbn [parse_value].
      destruct (skip_ws s) as [|c r] eqn:W; [discriminate|].
      pose proof (skip_ws_length s) as Ls. rewrite W in Ls. cbn [length] in Ls.
      destruct (c =? 123)%N.
      { destruct (skip_ws r) as [|c1 r1] eqn:W1; [discriminate|].
        pose proof (skip_ws_length r) as Lr. rewrite W1 in Lr. cbn [length] in Lr.
        destruct (c1 =? 125)%N; [discriminate|].
        destruct (parse_members f (c1 :: r1)) as [ms rest'| |] eqn:Pm;
          try discriminate.
        exfalso. apply (IHm (c1 :: r1)); [cbn [length]; lia | exact Pm]. }
      destruct (c =? 91)%N.
      { destruct (skip_ws r) as [|c1 r1] eqn:W1; [discriminate|].
        pose proof (skip_ws_length r) as Lr. rewrite W1 in Lr. cbn [length] in Lr.
        destruct (c1 =? 93)%N; [discriminate|].
        destruct (parse_elements f (c1 :: r1)) as [vs rest'| |] eqn:Pe;
          try discriminate.
        exfalso. apply (IHe (c1 :: r1)); [cbn [length]; lia | exact Pe]. }
      destruct (c =? 34)%N.
      { destruct (parse_chars r) as [[x rest']|]; discriminate. }
      destruct (startsWith (c :: r) lit_true); [discriminate|].
      destruct (startsWith (c :: r) lit_false); [discriminate|].
      destruct (startsWith (c :: r) lit_null); [discriminate|].
      destruct (parse_number (c :: r)) as [[n rest']|]; discriminate.
    + intros s L. cbn [parse_elements].
      destruct (parse_value f s) as [v r| |] eqn:Pv; try discriminate.
      * apply Cv in Pv.
        destruct (skip_ws r) as [|c r1] eqn:W; [discriminate|].
        pose proof (skip_ws_length r) as Lr. rewrite W in Lr. cbn [length] in Lr.
        destruct (c =? 44)%N.
        { destruct (parse_elements f r1) as [vs' rest'| |] eqn:Pe; try discriminate.
          exfalso. apply (IHe r1); [lia | exact Pe]. }
        destruct (c =? 93)%N; discriminate.
      * exfalso. apply (IHv s); [lia | exact Pv].
    + intros s L. cbn [parse_members].
      destruct (skip_ws s) as [|c r] eqn:W; [discriminate|].
      pose proof (skip_ws_length s) as Ls. rewrite W in Ls. cbn [length] in Ls.
      destruct (c =? 34)%N; [|discriminate].
      destruct (parse_chars r) as [[key r1]|] eqn:Pc; [|discriminate].
      apply parse_chars_length in Pc.
      destruct (skip_ws r1) as [|c2 r2] eqn:W1; [discriminate|].
      pose proof (skip_ws_length r1) as L1. rewrite W1 in L1. cbn [length] in L1.
      destruct (c2 =? 58)%N; [|discriminate].
      destruct (parse_value f r2) as [v r3| |] eqn:Pv; try discriminate.
      * apply Cv in Pv.
        destruct (skip_ws r3) as [|c3 r4] eqn:W3; [discriminate|].
        pose proof (skip_ws_length r3) as L3. rewrite W3 in L3. cbn [length] in L3.
        destruct (c3 =? 44)%N.
        { destruct (parse_members f r4) as [ms' rest'| |] eqn:Pm; try discriminate.
          exfalso. apply (IHm r4); [lia | exact Pm]. }
        destruct (c3 =? 125)%N; discriminate.
      * exfalso. apply (IHv r2); [lia | exact Pv].
Qed.

(** [JSON_parse] never stops for lack of fuel. *)
Lemma parse_value_fuel (s : ustring) : parse_value (parse_fuel s) s <> PFuel.
Proof.
  destruct (parse_fuel_enough (parse_fuel s)) as (H & _ & _).
  apply H. unfold parse_fuel. lia.
Qed.

(** What [JSON_parse] throws comes from the text: there is no value at
    its start, or something other than white space follows the value. *)
Lemma JSON_parse_Throw (s : ustring) (e : JSError) :
  JSON_parse s = Throw e ->
  e = SyntaxError
  /\ (parse_value (parse_fuel s) s = PErr
      \/ exists v rest,
           parse_value (parse_fuel s) s = POk v rest /\ skip_ws rest <> []).
Proof.
  unfold JSON_parse. pose proof (parse_value_fuel s) as F.
  destruct (parse_value (parse_fuel s) s) as [v rest| |] eqn:P.
  - destruct (skip_ws rest) as [|c r] eqn:W; [discriminate|].
    intros E. injection E as <-. split; [reflexivity|].
    right. exists v, rest. rewrite W. split; [reflexivity | discriminate].
  - intros E. injection E as <-. split; [reflexivity | left; reflexivity].
  - contradiction F. reflexivity.
Qed.

(* ================================================================== *)
(** * Properties of the bridge client *)

Lemma runShell_eq (env : Env) (script : ustring) (timeout : option Q) (w : World) :
  Speaker.runShell env script timeout w
  = (Normal (resolved_value (reply_of env script timeout w)), sent w script timeout).
Proof.
  unfold Speaker.runShell, try_catch, bind, RustServer_run_shell, reply_of,
    sent, timeout_of, resolved_value, lift, ret.
  destruct timeout as [t|];
    (destruct (run_shell env (shell_calls w) script _) as [[[|c out]|]|];
     [ reflexivity
     | destruct (JSON_parse (c :: out)); reflexivity
     | reflexivity
     | reflexivity ]).
Qed.

(** C1.  [runShell] never throws.  It resolves to [undefined] when the
    bridge call is rejected, gives no output, gives the empty text or gives
    text that [JSON.parse] refuses (a command that ran out of time ends in
    one of these); when the bridge gives valid JSON it resolves to the
    parsed value; and it resolves to a [CommandResult] only when the bridge
    gave text that parses to it. *)
Theorem runShell_absent_or_parsed :
  forall (env : Env) (script : ustring) (timeout : option Q) (w : World),
  exists v : JSValue,
    fst (Speaker.runShell env script timeout w) = Normal v
    /\ (reply_of env script timeout w = Rejected -> v = JUndefined)
    /\ (reply_of env script timeout w = Resolved None -> v = JUndefined)
    /\ (reply_of env script timeout w = Resolved (Some []) -> v = JUndefined)
    /\ (forall out,
          reply_of env script timeout w = Resolved (Some out) ->
          (forall x, JSON_parse out <> Normal x) -> v = JUndefined)
    /\ (forall out x,
          reply_of env script timeout w = Resolved (Some out) ->
          JSON_parse out = Normal x -> v = x)
    /\ (is_CommandResult v ->
        exists out,
          reply_of env script timeout w = Resolved (Some out)
          /\ JSON_parse out = Normal v).
Proof.
  intros env script timeout w.
  exists (resolved_value (reply_of env script timeout w)).
  rewrite runShell_eq. cbn [fst].
  split; [reflexivity|].
  destruct (reply_of env script timeout w) as [[out|]|] eqn:R; cbn [resolved_value].
  - repeat split; try discriminate.
    + intros E. injection E as ->. reflexivity.
    + intros out' Eo Hbad. injection Eo as <-.
      destruct (JSON_parse out) as [x|e] eqn:P; [|reflexivity].
      exfalso. exact (Hbad x eq_refl).
    + intros out' x Eo P. injection Eo as <-. rewrite P. reflexivity.
    + intros Hcr. exists out. split; [reflexivity|].
      destruct (JSON_parse out) as [x|e] eqn:P; [reflexivity|].
      destruct Hcr as (so & se & c & H1 & _). discriminate H1.
  - repeat split; try discriminate; try reflexivity.
    intros (so & se & c & H1 & _). discriminate H1.
  - repeat split; try discriminate; try reflexivity.
    intros (so & se & c & H1 & _). discriminate H1.
Qed.

(* ================================================================== *)
(** * Properties of the event handler *)

Lemma bind_lift_Normal {A B} (a : A) (k : A -> M B) (w : World) :
  bind (lift (Normal a)) k w = k a w.
Proof. reflexivity. Qed.

Lemma str_eq_true (v : JSValue) (s : ustring) :
  str_eq v s = true <-> v = JStr s.
Proof.
  destruct v; cbn; split; try discriminate.
  - intros H. apply ustring_eqb_eq in H. congruence.
  - intros H. injection H as ->. apply ustring_eqb_refl.
Qed.

Lemma get_opt_Normal (v x : JSValue) (name : ustring) :
  get v name = Normal x -> get_opt v name = x.
Proof. unfold get_opt. intros ->. reflexivity. Qed.

Lemma get0_opt_Normal (v x : JSValue) :
  get0 v = Normal x -> get0_opt v = x.
Proof. unfold get0_opt. intros ->. reflexivity. Qed.

Lemma get_total (v : JSValue) (name : ustring) :
  nullish v = false -> get v name = Normal (get_opt v name).
Proof.
  destruct v; cbn; try discriminate; intros _; try reflexivity.
  unfold get_opt. cbn. destruct (lookup name props); reflexivity.
Qed.

Lemma get_Normal_not_nullish (v x : JSValue) (name : ustring) :
  get v name = Normal x -> nullish v = false.
Proof. destruct v; cbn; try discriminate; reflexivity. Qed.

Lemma onEvent_playing (env : Env) (event : ustring) (e : JSValue) (w : World) :
  JSON_parse event = Normal e ->
  get e (u "event") = Normal (JStr (u "playing")) ->
  XiaoAI.onEvent env event w
  = (Normal tt,
     mkWorld (status_of_data (get_opt e (u "data")))
       (shell_calls w) (messages w) (console w)).
Proof.
  intros P K. unfold XiaoAI.onEvent.
  rewrite P, bind_lift_Normal, K, bind_lift_Normal.
  replace (str_eq (JStr (u "playing")) (u "playing")) with true by reflexivity.
  rewrite (get_total e (u "data") (get_Normal_not_nullish e _ _ K)).
  rewrite bind_lift_Normal. unfold set_status, status_of_data.
  destruct (get_opt e (u "data")); reflexivity.
Qed.

(** C4.  A playback event sets the cached status from its payload, whatever
    the status was before: [playing] for ["Playing"], [paused] for
    ["Paused"], [idle] for every other payload; nothing else changes. *)
Theorem onEvent_playing_overwrites_status :
  forall (env : Env) (event : ustring) (e : JSValue) (w : World),
    JSON_parse event = Normal e ->
    get e (u "event") = Normal (JStr (u "playing")) ->
    exists w' : World,
      XiaoAI.onEvent env event w = (Normal tt, w')
      /\ (get_opt e (u "data") = JStr (u "Playing") -> status w' = playing)
      /\ (get_opt e (u "data") = JStr (u "Paused") -> status w' = paused)
      /\ (get_opt e (u "data") <> JStr (u "Playing") ->
          get_opt e (u "data") <> JStr (u "Paused") -> status w' = idle)
      /\ shell_calls w' = shell_calls w
      /\ messages w' = messages w
      /\ console w' = console w.
Proof.
  intros env event e w P K.
  eexists. split; [apply (onEvent_playing env event e w P K)|].
  cbn [status shell_calls messages console].
  repeat split.
  - intros ->. reflexivity.
  - intros ->. reflexivity.
  - intros N1 N2. unfold status_of_data.
    destruct (get_opt e (u "data")) as [| | | |s| |]; try reflexivity.
    destruct (ustring_eqb s (u "Playing")) eqn:E1.
    { apply ustring_eqb_eq in E1. subst s. exfalso. apply N1. reflexivity. }
    destruct (ustring_eqb s (u "Paused")) eqn:E2.
    { apply ustring_eqb_eq in E2. subst s. exfalso. apply N2. reflexivity. }
    reflexivity.
Qed.

Lemma onEvent_playing_overwrites_status_witness :
  status (snd (XiaoAI.onEvent (sample_env Rejected)
                 (u "{`event`:`playing`,`data`:`Playing`}")
                 (mkWorld paused [] [] []))) = playing
  /\ status (snd (XiaoAI.onEvent (sample_env Rejected)
                 (u "{`event`:`playing`,`data`:`Paused`}")
                 (mkWorld playing [] [] []))) = paused
  /\ status (snd (XiaoAI.onEvent (sample_env Rejected)
                 (u "{`event`:`playing`,`data`:`Stopped`}")
                 (mkWorld playing [] [] []))) = idle.
Proof.
  split; [|split].
  - destruct (onEvent_playing_overwrites_status (sample_env Rejected)
                (u "{`event`:`playing`,`data`:`Playing`}") _
                (mkWorld paused [] [] []) eq_refl eq_refl)
      as (w' & E & H & _).
    rewrite E. apply H. reflexivity.
  - destruct (onEvent_playing_overwrites_status (sample_env Rejected)
                (u "{`event`:`playing`,`data`:`Paused`}") _
                (mkWorld playing [] [] []) eq_refl eq_refl)
      as (w' & E & _ & H & _).
    rewrite E. apply H. reflexivity.
  - destruct (onEvent_playing_overwrites_status (sample_env Rejected)
                (u "{`event`:`playing`,`data`:`Stopped`}") _
                (mkWorld playing [] [] []) eq_refl eq_refl)
      as (w' & E & _ & _ & H & _).
    rewrite E. apply H; discriminate.
Defined.

Lemma forwarded_nil (w : World) : forwarded w [] = w.
Proof. destruct w. unfold forwarded. cbn. rewrite app_nil_r. reflexivity. Qed.

(** C5.  An instruction event whose [NewLine] decodes to a recognition
    result ([SpeechRecognizer] / [RecognizeResult]) with a non-empty
    [results[0].text]: when [is_final] is [true], exactly one utterance
    with that text and sender ["user"] is handed to the message handler;
    when it is [false], none is.  Nothing else changes. *)
Theorem onEvent_forwards_final_result :
  forall (env : Env) (event t : ustring) (final : bool)
         (e data newLine line header payload results first : JSValue)
         (w : World),
    JSON_parse event = Normal e ->
    get e (u "event") = Normal (JStr (u "instruction")) ->
    get e (u "data") = Normal data ->
    get data (u "NewLine") = Normal newLine ->
    truthy newLine = true ->
    jsonDecode env newLine = line ->
    get line (u "header") = Normal header ->
    get header (u "namespace") = Normal (JStr (u "SpeechRecognizer")) ->
    get header (u "name") = Normal (JStr (u "RecognizeResult")) ->
    get line (u "payload") = Normal payload ->
    get payload (u "is_final") = Normal (JBool final) ->
    get payload (u "results") = Normal results ->
    get0 results = Normal first ->
    get first (u "text") = Normal (JStr t) ->
    t <> [] ->
    XiaoAI.onEvent env event w
    = (Normal tt,
       forwarded w (if final then [utterance env (JStr t)] else [])).
Proof.
  intros env event t final e data newLine line header payload results first w
    P K D NL Etruthy PL H NS NM PY F R R0 T Tne.
  assert (Efinal : XiaoAI.is_final_result line = final).
  { unfold XiaoAI.is_final_result.
    rewrite (get_opt_Normal _ _ _ H), (get_opt_Normal _ _ _ NS),
      (get_opt_Normal _ _ _ NM), (get_opt_Normal _ _ _ PY),
      (get_opt_Normal _ _ _ F), (get_opt_Normal _ _ _ R),
      (get0_opt_Normal _ _ R0), (get_opt_Normal _ _ _ T).
    replace (str_eq (JStr (u "SpeechRecognizer")) (u "SpeechRecognizer"))
      with true by reflexivity.
    replace (str_eq (JStr (u "RecognizeResult")) (u "RecognizeResult"))
      with true by reflexivity.
    destruct t; [contradiction Tne; reflexivity|].
    destruct final; reflexivity. }
  unfold XiaoAI.onEvent.
  rewrite P, bind_lift_Normal, K, bind_lift_Normal.
  replace (str_eq (JStr (u "instruction")) (u "playing")) with false by reflexivity.
  replace (str_eq (JStr (u "instruction")) (u "instruction")) with true by reflexivity.
  unfold bind, lift, ret. cbv beta iota.
  rewrite D, NL, Etruthy. cbv beta iota.
  rewrite PL, Efinal.
  destruct final.
  - rewrite PY, R, R0, T. reflexivity.
  - rewrite forwarded_nil. reflexivity.
Qed.

Lemma onEvent_forwards_final_result_witness :
  XiaoAI.onEvent (sample_env Rejected) (recognition_event true) initial_world
  = (Normal tt,
     forwarded initial_world
       [mkMessage (JStr (u "turn on the light")) (u "0000-0001") (u "user")
          1700000000000%Z])
  /\ XiaoAI.onEvent (sample_env Rejected) (recognition_event false) initial_world
     = (Normal tt, forwarded initial_world []).
Proof.
  split.
  - eapply (onEvent_forwards_final_result (sample_env Rejected)
              (recognition_event true) (u "turn on the light") true);
      [ vm_compute; reflexivity .. | discriminate ].
  - eapply (onEvent_forwards_final_result (sample_env Rejected)
              (recognition_event false) (u "turn on the light") false);
      [ vm_compute; reflexivity .. | discriminate ].
Defined.

Lemma get_opt_nullish (v : JSValue) (name : ustring) :
  nullish v = true -> get_opt v name = JUndefined.
Proof. destruct v; cbn; try discriminate; reflexivity. Qed.

Lemma get0_total (v : JSValue) :
  nullish v = false -> get0 v = Normal (get0_opt v).
Proof.
  destruct v; cbn; try discriminate; intros _; try reflexivity.
  unfold get0_opt. cbn. destruct (lookup [48%N] props); reflexivity.
Qed.

Lemma get0_opt_nullish (v : JSValue) :
  nullish v = true -> get0_opt v = JUndefined.
Proof. destruct v; cbn; try discriminate; reflexivity. Qed.

(** When the test of the recognition result passes, the reads that
    follow it do not throw. *)
Lemma is_final_result_reads (line : JSValue) :
  XiaoAI.is_final_result line = true ->
  exists payload results first text,
    get line (u "payload") = Normal payload
    /\ get payload (u "results") = Normal results
    /\ get0 results = Normal first
    /\ get first (u "text") = Normal text.
Proof.
  unfold XiaoAI.is_final_result. intros Hf.
  apply andb_true_iff in Hf as [_ Ht].
  set (payload := get_opt line (u "payload")) in *.
  set (results := get_opt payload (u "results")) in *.
  set (first := get0_opt results) in *.
  assert (N3 : nullish first = false).
  { destruct (nullish first) eqn:E; [|reflexivity].
    rewrite (get_opt_nullish first _ E) in Ht. discriminate Ht. }
  assert (N2 : nullish results = false).
  { destruct (nullish results) eqn:E; [|reflexivity].
    unfold first in N3. rewrite (get0_opt_nullish results E) in N3.
    discriminate N3. }
  assert (N1 : nullish payload = false).
  { destruct (nullish payload) eqn:E; [|reflexivity].
    unfold results in N2. rewrite (get_opt_nullish payload _ E) in N2.
    discriminate N2. }
  assert (N0 : nullish line = false).
  { destruct (nullish line) eqn:E; [|reflexivity].
    unfold payload in N1. rewrite (get_opt_nullish line _ E) in N1.
    discriminate N1. }
  exists payload, results, first, (get_opt first (u "text")).
  repeat split.
  - apply get_total. exact N0.
  - apply get_total. exact N1.
  - apply get0_total. exact N2.
  - apply get_total. exact N3.
Qed.

(** C2, as the code has it.  When the event text is valid JSON for a value
    other than [null], and an instruction event carries a [data] that is
    neither absent nor [null], [onEvent] completes without throwing; and
    when the event is not one the handler acts on, the world is left as it
    was: no status change, nothing forwarded, nothing logged. *)
Theorem onEvent_ignores_unrecognized :
  forall (env : Env) (event : ustring) (e : JSValue) (w : World),
    JSON_parse event = Normal e ->
    nullish e = false ->
    (str_eq (get_opt e (u "event")) (u "instruction") = true ->
     nullish (get_opt e (u "data")) = false) ->
    exists w' : World,
      XiaoAI.onEvent env event w = (Normal tt, w')
      /\ (recognized env e = false -> w' = w).
Proof.
  intros env event e w P Ne Hd.
  unfold XiaoAI.onEvent, recognized.
  rewrite P, bind_lift_Normal, (get_total e (u "event") Ne), bind_lift_Normal.
  set (kind := get_opt e (u "event")) in *.
  destruct (str_eq kind (u "playing")) eqn:Kp.
  { rewrite (get_total e (u "data") Ne), bind_lift_Normal.
    eexists. split; [reflexivity|]. cbn. discriminate. }
  destruct (str_eq kind (u "instruction")) eqn:Ki.
  - specialize (Hd eq_refl).
    set (data := get_opt e (u "data")) in *.
    set (newLine := get_opt data (u "NewLine")).
    unfold bind, lift, ret.
    rewrite (get_total e (u "data") Ne). fold data.
    rewrite (get_total data (u "NewLine") Hd). fold newLine.
    destruct (truthy newLine) eqn:Tn; cbv beta iota.
    + destruct (XiaoAI.is_final_result (jsonDecode env newLine)) eqn:Fr.
      * destruct (is_final_result_reads _ Fr) as (py & rs & f & t & E1 & E2 & E3 & E4).
        rewrite E1, E2, E3, E4.
        eexists. split; [reflexivity|].
        rewrite orb_true_r. discriminate.
      * exists w. split; [reflexivity|]. reflexivity.
    + destruct (str_eq kind (u "kws")) eqn:Kk.
      * apply str_eq_true in Ki. apply str_eq_true in Kk.
        rewrite Ki in Kk. discriminate Kk.
      * exists w. split; reflexivity.
  - unfold bind, ret. cbv beta iota.
    destruct (str_eq kind (u "kws")) eqn:Kk.
    + rewrite (get_total e (u "data") Ne).
      eexists. split; [reflexivity|]. cbn. discriminate.
    + exists w. split; reflexivity.
Qed.

Lemma onEvent_ignores_unrecognized_witness :
  XiaoAI.onEvent (sample_env Rejected) (u "{`event`:`battery`,`data`:{`level`:80}}")
    (mkWorld playing [] [] [])
  = (Normal tt, mkWorld playing [] [] [])
  /\ XiaoAI.onEvent (sample_env Rejected) (u "{`event`:`instruction`,`data`:{`NewFile`:`a.log`}}")
       (mkWorld playing [] [] [])
     = (Normal tt, mkWorld playing [] [] []).
Proof.
  split.
  - destruct (onEvent_ignores_unrecognized (sample_env Rejected)
                (u "{`event`:`battery`,`data`:{`level`:80}}") _
                (mkWorld playing [] [] []) eq_refl eq_refl)
      as (w' & E & H).
    + discriminate.
    + rewrite E, (H eq_refl). reflexivity.
  - destruct (onEvent_ignores_unrecognized (sample_env Rejected)
                (u "{`event`:`instruction`,`data`:{`NewFile`:`a.log`}}") _
                (mkWorld playing [] [] []) eq_refl eq_refl)
      as (w' & E & H).
    + reflexivity.
    + rewrite E, (H eq_refl). reflexivity.
Defined.

(** C2, as stated, fails: text that is not JSON makes [JSON.parse] throw,
    the event [null] and an instruction event without [data] make a
    property read throw, and [onEvent] catches none of them. *)
Lemma onEvent_throws :
  fst (XiaoAI.onEvent (sample_env Rejected) (u "wake up") initial_world)
  = Throw SyntaxError
  /\ fst (XiaoAI.onEvent (sample_env Rejected) (u "null") initial_world)
     = Throw TypeError
  /\ fst (XiaoAI.onEvent (sample_env Rejected) (u "{`event`:`instruction`}")
            initial_world)
     = Throw TypeError.
Proof. split; [|split]; vm_compute; reflexivity. Qed.

(* ================================================================== *)
(** * Properties of the device probe and of [play] *)

(** One character of the lowered text, when it is not [i] or [k]: it is
    the folded character of the text, and nothing else came with it. *)
Lemma lower_head (c x : N) (rest tail : ustring) :
  lower_unit c ++ rest = x :: tail ->
  x <> 105%N -> x <> 107%N ->
  fold_case c = x /\ rest = tail.
Proof.
  unfold lower_unit, fold_case.
  destruct ((65 <=? c) && (c <=? 90))%N.
  - cbn. intros E _ _. injection E as -> ->. split; reflexivity.
  - destruct (c =? 304)%N.
    + cbn. intros E Hi _. injection E as E1 _. congruence.
    + destruct (c =? 8490)%N.
      * cbn. intros E _ Hk. injection E as E1 _. congruence.
      * cbn. intros E _ _. injection E as -> ->. split; reflexivity.
Qed.

(** The character [i] of the lowered text, when a [c] follows it. *)
Lemma lower_head_i (c : N) (rest tail : ustring) :
  lower_unit c ++ rest = 105%N :: 99%N :: tail ->
  fold_case c = 105%N /\ rest = 99%N :: tail.
Proof.
  unfold lower_unit, fold_case.
  destruct ((65 <=? c) && (c <=? 90))%N.
  - cbn. intros E. injection E as -> ->. split; reflexivity.
  - destruct (c =? 304)%N.
    + cbn. intros E. discriminate E.
    + destruct (c =? 8490)%N.
      * cbn. intros E. discriminate E.
      * cbn. intros E. injection E as -> ->. split; reflexivity.
Qed.

(** A character that folds to a letter of the marker is lowered to that
    letter alone. *)
Lemma lower_of_marker_letter (c : N) :
  In (fold_case c) Speaker.marker -> lower_unit c = [fold_case c].
Proof.
  unfold lower_unit, fold_case.
  destruct ((65 <=? c) && (c <=? 90))%N eqn:U; [reflexivity|].
  intros H.
  destruct (c =? 304)%N eqn:E1.
  { apply N.eqb_eq in E1. subst c. cbn in H.
    repeat (destruct H as [H | H]; [discriminate H|]). contradiction. }
  destruct (c =? 8490)%N eqn:E2.
  { apply N.eqb_eq in E2. subst c. cbn in H.
    repeat (destruct H as [H | H]; [discriminate H|]). contradiction. }
  reflexivity.
Qed.

Lemma lower_of_marker_word (mid : ustring) :
  Forall (fun c => In (fold_case c) Speaker.marker) mid ->
  toLowerCase mid = map fold_case mid.
Proof.
  unfold toLowerCase. induction 1 as [|c mid Hc _ IH]; cbn.
  - reflexivity.
  - rewrite (lower_of_marker_letter c Hc), IH. reflexivity.
Qed.

Lemma toLowerCase_app (a b : ustring) :
  toLowerCase (a ++ b) = toLowerCase a ++ toLowerCase b.
Proof. unfold toLowerCase. apply flat_map_app. Qed.

(** The marker at the start of the lowered text comes from seven
    characters at the start of the text. *)
Lemma lower_prefix_marker (s post : ustring) :
  toLowerCase s = Speaker.marker ++ post ->
  exists mid rest,
    s = mid ++ rest /\ map fold_case mid = Speaker.marker.
Proof.
  unfold toLowerCase, Speaker.marker. cbn [app].
  intros E.
  destruct s as [|c1 s]; [discriminate E|]. cbn [flat_map] in E.
  apply lower_head in E as [F1 E]; [|discriminate|discriminate].
  destruct s as [|c2 s]; [discriminate E|]. cbn [flat_map] in E.
  apply lower_head in E as [F2 E]; [|discriminate|discriminate].
  destruct s as [|c3 s]; [discriminate E|]. cbn [flat_map] in E.
  apply lower_head in E as [F3 E]; [|discriminate|discriminate].
  destruct s as [|c4 s]; [discriminate E|]. cbn [flat_map] in E.
  apply lower_head in E as [F4 E]; [|discriminate|discriminate].
  destruct s as [|c5 s]; [discriminate E|]. cbn [flat_map] in E.
  apply lower_head in E as [F5 E]; [|discriminate|discriminate].
  destruct s as [|c6 s]; [discriminate E|]. cbn [flat_map] in E.
  apply lower_head_i in E as [F6 E].
  destruct s as [|c7 s]; [discriminate E|]. cbn [flat_map] in E.
  apply lower_head in E as [F7 E]; [|discriminate|discriminate].
  exists [c1; c2; c3; c4; c5; c6; c7], s. split; [reflexivity|].
  cbn [map]. rewrite F1, F2, F3, F4, F5, F6, F7. reflexivity.
Qed.

(** A character of the lowered text that is the first letter of the
    marker is the first character that its source character gave. *)
Lemma lower_inside (s pre post : ustring) :
  toLowerCase s = pre ++ Speaker.marker ++ post ->
  exists a b post', s = a ++ b /\ toLowerCase b = Speaker.marker ++ post'.
Proof.
  revert pre. induction s as [|c s IH]; intros pre E.
  - destruct pre; discriminate E.
  - destruct pre as [|p pre].
    + exists [], (c :: s), post. split; [reflexivity | exact E].
    + change (toLowerCase (c :: s)) with (lower_unit c ++ toLowerCase s) in E.
      assert (Hs : exists pre', toLowerCase s = pre' ++ Speaker.marker ++ post).
      { unfold lower_unit in E.
        destruct ((65 <=? c) && (c <=? 90))%N;
          [cbn in E; injection E as _ E; exists pre; exact E|].
        destruct (c =? 304)%N.
        - cbn in E. injection E as _ E.
          destruct pre as [|q pre]; [discriminate E|].
          injection E as _ E. exists pre. exact E.
        - destruct (c =? 8490)%N; cbn in E; injection E as _ E;
            exists pre; exact E. }
      destruct Hs as [pre' Hs].
      destruct (IH pre' Hs) as (a & b & post' & -> & Hb).
      exists (c :: a), b, post'. split; [reflexivity | exact Hb].
Qed.

Lemma marker_folded : map fold_case Speaker.marker = Speaker.marker.
Proof. reflexivity. Qed.

(** The test of the code is the substring test of the specification. *)
Lemma includes_lower_marker (s : ustring) :
  includes (toLowerCase s) Speaker.marker = true
  <-> contains_ignoring_case s Speaker.marker.
Proof.
  rewrite includes_app. unfold contains_ignoring_case. rewrite marker_folded.
  split.
  - intros (pre & post & E).
    destruct (lower_inside s pre post E) as (a & b & post' & -> & Hb).
    destruct (lower_prefix_marker b post' Hb) as (mid & rest & -> & Hm).
    exists a, mid, rest. split; [reflexivity | exact Hm].
  - intros (pre & mid & post & -> & Hm).
    exists (toLowerCase pre), (toLowerCase post).
    rewrite !toLowerCase_app. f_equal. f_equal.
    rewrite lower_of_marker_word; [exact Hm|].
    apply Forall_forall. intros c Hc.
    rewrite <- Hm. apply in_map. exact Hc.
Qed.

Lemma isNewDevice_world (env : Env) (w : World) :
  snd (Speaker.isNewDevice env w) = sent w Speaker.probe_script None.
Proof.
  unfold Speaker.isNewDevice, bind. rewrite runShell_eq.
  destruct (nullish _); [reflexivity|].
  unfold lift. destruct (get _ _) as [so|err]; [|reflexivity].
  destruct (nullish so); [reflexivity|].
  destruct so; reflexivity.
Qed.

Lemma isNewDevice_absent (env : Env) (w : World) (res : JSValue) :
  fst (Speaker.runShell env Speaker.probe_script None w) = Normal res ->
  nullish res = true ->
  Speaker.isNewDevice env w = (Normal JUndefined, sent w Speaker.probe_script None).
Proof.
  rewrite runShell_eq. cbn [fst]. intros E N. injection E as E.
  unfold Speaker.isNewDevice, bind. rewrite runShell_eq, E, N. reflexivity.
Qed.

Lemma isNewDevice_stdout (env : Env) (w : World) (res : JSValue) (s : ustring) :
  fst (Speaker.runShell env Speaker.probe_script None w) = Normal res ->
  get res (u "stdout") = Normal (JStr s) ->
  Speaker.isNewDevice env w
  = (Normal (JBool (includes (toLowerCase s) Speaker.marker)),
     sent w Speaker.probe_script None).
Proof.
  rewrite runShell_eq. cbn [fst]. intros E G. injection E as E.
  unfold Speaker.isNewDevice, bind. rewrite runShell_eq, E.
  rewrite (get_Normal_not_nullish _ _ _ G). unfold lift. rewrite G.
  reflexivity.
Qed.

(** The commands [play] sends: the probe, then the command of the dialect
    that the probe's answer selects. *)
Lemma play_calls (env : Env) (options : Speaker.PlayOptions) (w w1 : World)
  (v : JSValue) :
  Speaker.isNewDevice env w = (Normal v, w1) ->
  shell_calls (snd (Speaker.play env options w))
  = shell_calls w
    ++ [(Speaker.probe_script, (10 * 1000)%Q);
        (if truthy v then Speaker.new_command options
         else Speaker.legacy_command env options,
         Speaker.play_timeout options)].
Proof.
  intros E.
  assert (W1 : w1 = sent w Speaker.probe_script None).
  { rewrite <- isNewDevice_world with (env := env). rewrite E. reflexivity. }
  unfold Speaker.play, bind. rewrite E.
  destruct (truthy v); rewrite runShell_eq.
  - unfold ret. cbn [snd]. subst w1. unfold sent. cbn.
    rewrite <- app_assoc. reflexivity.
  - set (res := resolved_value _).
    assert (S : forall (c : completion bool * World),
               snd c = sent w1 (Speaker.legacy_command env options)
                         (Some (Speaker.play_timeout options)) ->
               shell_calls (snd c)
               = shell_calls w
                 ++ [(Speaker.probe_script, (10 * 1000)%Q);
                     (Speaker.legacy_command env options, Speaker.play_timeout options)]).
    { intros c ->. subst w1. unfold sent. cbn. rewrite <- app_assoc. reflexivity. }
    apply S.
    destruct (nullish res); [reflexivity|].
    unfold lift. destruct (get res (u "stdout")) as [so|err]; [|reflexivity].
    destruct (nullish so); reflexivity.
Qed.

(** C6, as the code has it.  The probe reads the hardware field.  When
    its output is a text, [isNewDevice] resolves to a boolean that is
    [true] exactly when the text contains [amlogic], letter case ignored,
    and [play] sends the command of the dialect so chosen.  When the probe
    has no result, [isNewDevice] resolves to [undefined], which counts as
    false, and [play] sends the command of the older devices. *)
Theorem isNewDevice_marker_or_legacy :
  forall (env : Env) (w : World) (res : JSValue),
    fst (Speaker.runShell env Speaker.probe_script None w) = Normal res ->
    (forall s : ustring,
        get res (u "stdout") = Normal (JStr s) ->
        exists b : bool,
          fst (Speaker.isNewDevice env w) = Normal (JBool b)
          /\ (b = true <-> contains_ignoring_case s Speaker.marker)
          /\ forall options,
               shell_calls (snd (Speaker.play env options w))
               = shell_calls w
                 ++ [(Speaker.probe_script, (10 * 1000)%Q);
                     (if b then Speaker.new_command options
                      else Speaker.legacy_command env options,
                      Speaker.play_timeout options)])
    /\ (nullish res = true ->
        fst (Speaker.isNewDevice env w) = Normal JUndefined
        /\ truthy JUndefined = false
        /\ forall options,
             shell_calls (snd (Speaker.play env options w))
             = shell_calls w
               ++ [(Speaker.probe_script, (10 * 1000)%Q);
                   (Speaker.legacy_command env options,
                    Speaker.play_timeout options)]).
Proof.
  intros env w res R. split.
  - intros s G.
    exists (includes (toLowerCase s) Speaker.marker).
    pose proof (isNewDevice_stdout env w res s R G) as E.
    rewrite E. split; [reflexivity|]. split.
    + apply includes_lower_marker.
    + intros options. rewrite (play_calls env options w _ _ E). reflexivity.
  - intros N.
    pose proof (isNewDevice_absent env w res R N) as E.
    rewrite E. split; [reflexivity|]. split; [reflexivity|].
    intros options. rewrite (play_calls env options w _ _ E). reflexivity.
Qed.

Lemma isNewDevice_marker_or_legacy_witness :
  fst (Speaker.isNewDevice (sample_env amlogic_reply) initial_world)
  = Normal (JBool true)
  /\ shell_calls
       (snd (Speaker.play (sample_env Rejected)
               (Speaker.mkPlayOptions (Some (u "hi")) None None) initial_world))
     = [(Speaker.probe_script, (10 * 1000)%Q);
        (u "ubus call mibrain text_to_speech '{`text`:`hi`,`save`:0}'",
         (10 * 1000)%Q)].
Proof.
  split.
  - destruct (isNewDevice_marker_or_legacy (sample_env amlogic_reply)
                initial_world _ eq_refl) as [H _].
    destruct (H (u "Amlogic" ++ [10%N]) eq_refl) as (b & E & Hb & _).
    rewrite E. f_equal. f_equal. apply Hb.
    exists [], (u "Amlogic"), [10%N]. split; reflexivity.
  - destruct (isNewDevice_marker_or_legacy (sample_env Rejected)
                initial_world _ eq_refl) as [_ H].
    destruct (H eq_refl) as (_ & _ & P).
    rewrite P. reflexivity.
Defined.

(** C6, as stated, fails in one word: without a result the probe resolves
    to [undefined], not to the boolean [false]. *)
Lemma isNewDevice_absent_is_undefined :
  fst (Speaker.isNewDevice (sample_env Rejected) initial_world)
  = Normal JUndefined
  /\ fst (Speaker.isNewDevice (sample_env Rejected) initial_world)
     <> Normal (JBool false).
Proof. split; [reflexivity | discriminate]. Qed.

(** C10.  When [play] is called with no url (absent or empty) and with a
    text that is absent or that the sanitizer empties, the command it
    sends after the probe speaks the greeting U+4F60 U+597D: the new
    devices get it as the argument of [tts_play.sh], the older ones as
    the [text] of the object given to [jsonEncode], which
    [JSON.stringify] writes as an object with that [text] and [save] 0. *)
Theorem play_speaks_default_greeting :
  forall (env : Env) (options : Speaker.PlayOptions) (w : World),
    Speaker.str_truthy (Speaker.opt_url options) = false ->
    (Speaker.opt_text options = None
     \/ exists t, Speaker.opt_text options = Some t
                  /\ Speaker.removeThinkingTags t = []) ->
    Speaker.new_command options = greeting_command
    /\ Speaker.legacy_command env options
       = u "ubus call mibrain text_to_speech '"
         ++ interpolate (jsonEncode env greeting_object) ++ u "'"
    /\ (jsonEncode env greeting_object = Some (JSON_stringify greeting_object) ->
        Speaker.legacy_command env options = greeting_legacy_command)
    /\ forall v w1,
         Speaker.isNewDevice env w = (Normal v, w1) ->
         shell_calls (snd (Speaker.play env options w))
         = shell_calls w
           ++ [(Speaker.probe_script, (10 * 1000)%Q);
               (if truthy v then greeting_command
                else u "ubus call mibrain text_to_speech '"
                     ++ interpolate (jsonEncode env greeting_object) ++ u "'",
                Speaker.play_timeout options)].
Proof.
  intros env options w Hu Ht.
  assert (Hc : Speaker.str_or (Speaker.cleanText options) Speaker.greeting
               = Speaker.greeting).
  { unfold Speaker.cleanText.
    destruct Ht as [-> | (t & -> & Hs)]; [reflexivity|].
    destruct t as [|c t]; [reflexivity|]. rewrite Hs. reflexivity. }
  assert (Hn : Speaker.new_command options = greeting_command).
  { unfold Speaker.new_command.
    destruct (Speaker.opt_url options) as [[|c url]|];
      try discriminate Hu; rewrite Hc; reflexivity. }
  assert (Hl : Speaker.legacy_command env options
               = u "ubus call mibrain text_to_speech '"
                 ++ interpolate (jsonEncode env greeting_object) ++ u "'").
  { unfold Speaker.legacy_command.
    destruct (Speaker.opt_url options) as [[|c url]|];
      try discriminate Hu; rewrite Hc; reflexivity. }
  split; [exact Hn|]. split; [exact Hl|]. split.
  - intros Hj. rewrite Hl, Hj. reflexivity.
  - intros v w1 E. rewrite (play_calls env options w w1 v E), Hn, Hl.
    reflexivity.
Qed.

Lemma play_speaks_default_greeting_witness :
  shell_calls
    (snd (Speaker.play (sample_env amlogic_reply)
            (Speaker.mkPlayOptions (Some (u "<think></think>")) None None)
            initial_world))
  = [(Speaker.probe_script, (10 * 1000)%Q);
     (greeting_command, (10 * 1000)%Q)]
  /\ shell_calls
       (snd (Speaker.play (sample_env Rejected)
               (Speaker.mkPlayOptions None None (Some true))
               initial_world))
     = [(Speaker.probe_script, (10 * 1000)%Q);
        (greeting_legacy_command, (20 * 1000)%Q)].
Proof.
  split.
  - destruct (play_speaks_default_greeting (sample_env amlogic_reply)
                (Speaker.mkPlayOptions (Some (u "<think></think>")) None None)
                initial_world eq_refl) as (_ & _ & _ & H).
    + right. exists (u "<think></think>"). split; reflexivity.
    + rewrite (H (JBool true) _ eq_refl). reflexivity.
  - destruct (play_speaks_default_greeting (sample_env Rejected)
                (Speaker.mkPlayOptions None None (Some true))
                initial_world eq_refl) as (_ & _ & _ & H).
    + left. reflexivity.
    + rewrite (H JUndefined _ eq_refl). reflexivity.
Defined.

(* ================================================================== *)
(** * Properties of the sanitizers *)

Lemma re_tags_lt : starts_with_lt re_tags.
Proof.
  split; [reflexivity|]. intros c t Hc.
  unfold exec_at, re_tags, open_tag, close_tag. cbn.
  apply N.eqb_neq in Hc. rewrite Hc. reflexivity.
Qed.

Lemma re_block_lt : starts_with_lt re_block.
Proof.
  split; [reflexivity|]. intros c t Hc.
  unfold exec_at, re_block, open_tag. cbn.
  apply N.eqb_neq in Hc. rewrite Hc. reflexivity.
Qed.

Lemma re_block_lines_lt : starts_with_lt re_block_lines.
Proof.
  split; [reflexivity|]. intros c t Hc.
  unfold exec_at, re_block_lines, open_tag. cbn.
  apply N.eqb_neq in Hc. rewrite Hc. reflexivity.
Qed.

(** Such a pattern leaves plain text in front of the rest as it is. *)
Lemma replace_all_plain_app (r : regex) (a t : ustring) :
  starts_with_lt r -> plain a ->
  replace_all r [] (a ++ t) = a ++ replace_all r [] t.
Proof.
  intros [_ Hr] Ha. unfold replace_all.
  induction Ha as [|c a Hc _ IH]; [reflexivity|].
  cbn [app replace_from]. rewrite (Hr c (a ++ t) Hc), IH. reflexivity.
Qed.

Lemma replace_all_plain (r : regex) (a : ustring) :
  starts_with_lt r -> plain a -> replace_all r [] a = a.
Proof.
  intros Hr Ha. rewrite <- (app_nil_r a) at 1.
  rewrite (replace_all_plain_app r a [] Hr Ha).
  destruct Hr as [H0 _]. unfold replace_all. cbn. rewrite H0.
  apply app_nil_r.
Qed.

Lemma exec_at_rest (r : regex) (s rest : ustring) :
  rmatch r s (fun x => Some x) = Some rest ->
  exec_at r s = Some (length s - length rest).
Proof. unfold exec_at. intros ->. reflexivity. Qed.

(** The first pass deletes an opening and a closing delimiter. *)
Lemma re_tags_open (t : ustring) :
  replace_all re_tags [] (open_tag ++ t) = replace_all re_tags [] t.
Proof.
  assert (E : exec_at re_tags (open_tag ++ t) = Some 7).
  { rewrite (exec_at_rest re_tags (open_tag ++ t) t); [|reflexivity].
    rewrite length_app. f_equal. change (length open_tag) with 7. lia. }
  unfold replace_all. unfold open_tag in *. cbn [app] in *.
  cbn [replace_from]. rewrite E. reflexivity.
Qed.

Lemma re_tags_close (t : ustring) :
  replace_all re_tags [] (close_tag ++ t) = replace_all re_tags [] t.
Proof.
  assert (E : exec_at re_tags (close_tag ++ t) = Some 8).
  { rewrite (exec_at_rest re_tags (close_tag ++ t) t); [|reflexivity].
    rewrite length_app. f_equal. change (length close_tag) with 8. lia. }
  unfold replace_all. unfold close_tag in *. cbn [app] in *.
  cbn [replace_from]. rewrite E. reflexivity.
Qed.

Lemma plain_app (a b : ustring) : plain a -> plain b -> plain (a ++ b).
Proof. unfold plain. intros. apply Forall_app. split; assumption. Qed.

(** C3.  Around plain text [a], [b] and [c], the first pass turns
    [a<think>b</think>c] into [abc], and no later pass has a delimiter
    left to find: both copies keep the text between the pair. *)
Theorem removeThinkingTags_keeps_enclosed_text :
  forall a b c : ustring,
    plain a -> plain b -> plain c ->
    Speaker.removeThinkingTags (a ++ open_tag ++ b ++ close_tag ++ c)
    = a ++ b ++ c
    /\ XiaoAI.removeThinkingTags (a ++ open_tag ++ b ++ close_tag ++ c)
       = a ++ b ++ c.
Proof.
  intros a b c Ha Hb Hc.
  assert (E : replace_all re_tags [] (a ++ open_tag ++ b ++ close_tag ++ c)
              = a ++ b ++ c).
  { rewrite (replace_all_plain_app re_tags a _ re_tags_lt Ha), re_tags_open.
    rewrite (replace_all_plain_app re_tags b _ re_tags_lt Hb), re_tags_close.
    rewrite (replace_all_plain re_tags c re_tags_lt Hc). reflexivity. }
  assert (P : plain (a ++ b ++ c)) by (repeat apply plain_app; assumption).
  split.
  - unfold Speaker.removeThinkingTags.
    destruct (a ++ open_tag ++ b ++ close_tag ++ c) as [|x text] eqn:T.
    { destruct a; discriminate T. }
    rewrite E. apply (replace_all_plain re_block _ re_block_lt P).
  - unfold XiaoAI.removeThinkingTags. rewrite E.
    rewrite (replace_all_plain re_block_lines _ re_block_lines_lt P).
    apply (replace_all_plain re_block _ re_block_lt P).
Qed.

Lemma removeThinkingTags_keeps_enclosed_text_witness :
  Speaker.removeThinkingTags (u "a<think>b</think>c") = u "abc"
  /\ XiaoAI.removeThinkingTags (u "a<think>b</think>c") = u "abc".
Proof.
  apply (removeThinkingTags_keeps_enclosed_text (u "a") (u "b") (u "c"));
    repeat constructor; discriminate.
Defined.

(* ================================================================== *)
(** * What the code does where it departs from the specification *)

Lemma getDevice_stdout (env : Env) (w : World) (res : JSValue) (s : ustring) :
  fst (Speaker.runShell env Speaker.device_script None w)
  = Normal res ->
  get res (u "stdout") = Normal (JStr s) ->
  fst (Speaker.getDevice env w)
  = Normal
      (Speaker.mkDeviceInfo
         (Speaker.or_unknown (nth_error (split 32 (trim s)) 0))
         (Speaker.or_unknown (nth_error (split 32 (trim s)) 1))).
Proof.
  rewrite runShell_eq. cbn [fst]. intros E G. injection E as E.
  unfold Speaker.getDevice, bind. rewrite runShell_eq, E.
  rewrite (get_Normal_not_nullish _ _ _ G). unfold lift. rewrite G.
  reflexivity.
Qed.

(** C7.  On the output [model123 SN456] the two tokens are the model and
    the serial number; on an empty output, or one of white space only, the
    serial number is [unknown] but the model is the empty string: [split]
    gives one empty piece, and [??] replaces only a missing one. *)
Theorem getDevice_empty_output_model :
  forall (env : Env) (w : World) (res : JSValue) (s : ustring),
    fst (Speaker.runShell env Speaker.device_script None w) = Normal res ->
    get res (u "stdout") = Normal (JStr s) ->
    (trim s = u "model123 SN456" ->
     fst (Speaker.getDevice env w)
     = Normal (Speaker.mkDeviceInfo (u "model123") (u "SN456")))
    /\ (trim s = [] ->
        fst (Speaker.getDevice env w)
        = Normal (Speaker.mkDeviceInfo [] (u "unknown"))).
Proof.
  intros env w res s R G.
  rewrite (getDevice_stdout env w res s R G). split.
  - intros ->. reflexivity.
  - intros ->. reflexivity.
Qed.

Lemma getDevice_empty_output_model_witness :
  fst (Speaker.getDevice (sample_env empty_reply) initial_world)
  = Normal (Speaker.mkDeviceInfo [] (u "unknown"))
  /\ fst (Speaker.getDevice (sample_env model_reply) initial_world)
     = Normal (Speaker.mkDeviceInfo (u "model123") (u "SN456")).
Proof.
  split.
  - destruct (getDevice_empty_output_model (sample_env empty_reply)
                initial_world _ [] eq_refl eq_refl) as [_ H].
    apply H. reflexivity.
  - destruct (getDevice_empty_output_model (sample_env model_reply)
                initial_world _ (u "model123 SN456" ++ [10%N]) eq_refl eq_refl)
      as [H _].
    apply H. reflexivity.
Defined.

(** C8.  Deleting a delimiter can join the text around it into a new
    one, which no later pass deletes when it has no partner. *)
Theorem removeThinkingTags_leaves_delimiter :
  Speaker.removeThinkingTags (u "<th<think>ink>") = u "<think>"
  /\ includes (Speaker.removeThinkingTags (u "<th<think>ink>")) open_tag = true
  /\ includes (Speaker.removeThinkingTags (u "</th</think>ink>")) close_tag = true.
Proof. split; [|split]; vm_compute; reflexivity. Qed.

(** C9.  A second run deletes the delimiter that the first run made. *)
Theorem removeThinkingTags_not_idempotent :
  Speaker.removeThinkingTags (u "<th<think>ink>") = u "<think>"
  /\ Speaker.removeThinkingTags (Speaker.removeThinkingTags (u "<th<think>ink>")) = []
  /\ XiaoAI.removeThinkingTags (u "<th<think>ink>") = u "<think>"
  /\ XiaoAI.removeThinkingTags (XiaoAI.removeThinkingTags (u "<th<think>ink>")) = [].
Proof. repeat split; vm_compute; reflexivity. Qed.

(* ================================================================== *)
(** * More on the sanitizers *)

Lemma subsequence_refl (a : ustring) : subsequence a a.
Proof. induction a; constructor; assumption. Qed.

Lemma subsequence_trans (a b c : ustring) :
  subsequence a b -> subsequence b c -> subsequence a c.
Proof.
  intros Hab Hbc. revert a Hab.
  induction Hbc as [|x b c Hbc IH|x b c Hbc IH]; intros a Hab.
  - exact Hab.
  - inversion Hab; subst.
    + apply sub_keep. apply IH. assumption.
    + apply sub_drop. apply IH. assumption.
  - apply sub_drop. apply IH. exact Hab.
Qed.

Lemma subsequence_length (a b : ustring) :
  subsequence a b -> length a <= length b.
Proof. induction 1; cbn; lia. Qed.

(** A global replace by the empty text only deletes. *)
Lemma replace_from_subsequence (r : regex) (s : ustring) :
  forall skip, subsequence (replace_from r [] skip s) s.
Proof.
  induction s as [|c s IH]; intros skip.
  - destruct skip; cbn; [destruct (exec_at r []) |]; constructor.
  - destruct skip as [|n]; cbn [replace_from].
    + destruct (exec_at r (c :: s)) as [[|n]|]; cbn [app].
      * apply sub_keep. apply IH.
      * apply sub_drop. apply IH.
      * apply sub_keep. apply IH.
    + apply sub_drop. apply IH.
Qed.

Lemma replace_all_subsequence (r : regex) (s : ustring) :
  subsequence (replace_all r [] s) s.
Proof. apply replace_from_subsequence. Qed.

(** X1.  The two sanitizers only delete: what they return is the text
    with some characters taken out, in the same order, and so is never
    longer than the text. *)
Theorem removeThinkingTags_only_deletes :
  forall text : ustring,
    subsequence (Speaker.removeThinkingTags text) text
    /\ subsequence (XiaoAI.removeThinkingTags text) text
    /\ length (Speaker.removeThinkingTags text) <= length text
    /\ length (XiaoAI.removeThinkingTags text) <= length text.
Proof.
  intros text.
  assert (S1 : subsequence (Speaker.removeThinkingTags text) text).
  { unfold Speaker.removeThinkingTags. destruct text as [|c t]; [constructor|].
    eapply subsequence_trans; apply replace_all_subsequence. }
  assert (S2 : subsequence (XiaoAI.removeThinkingTags text) text).
  { unfold XiaoAI.removeThinkingTags.
    eapply subsequence_trans; [apply replace_all_subsequence|].
    eapply subsequence_trans; apply replace_all_subsequence. }
  repeat split; try assumption; apply subsequence_length; assumption.
Qed.

(** A literal pattern matches when the text starts with the literal. *)
Lemma rmatch_lit (m : ustring) :
  forall (s : ustring) (k : ustring -> option ustring),
    rmatch (lit m) s k
    = if startsWith s m then k (skipn (length m) s) else None.
Proof.
  induction m as [|c m IH]; intros s k.
  - reflexivity.
  - destruct m as [|c2 m].
    + cbn. destruct s as [|x s]; [reflexivity|].
      rewrite andb_true_r. reflexivity.
    + change (lit (c :: c2 :: m)) with (Cat (Chr c) (lit (c2 :: m))).
      cbn [rmatch]. destruct s as [|x s]; [reflexivity|].
      cbn [startsWith length skipn].
      destruct (x =? c)%N; [|reflexivity].
      rewrite IH. reflexivity.
Qed.

Lemma startsWith_length (s m : ustring) :
  startsWith s m = true -> length s - length (skipn (length m) s) = length m.
Proof.
  intros H. apply startsWith_app in H as [post ->].
  rewrite skipn_app, skipn_all, Nat.sub_diag. cbn. rewrite length_app. lia.
Qed.

(** Where the first pass finds a delimiter: at an opening one, seven
    characters; at a closing one, eight; nowhere else. *)
Lemma exec_at_re_tags (s : ustring) :
  exec_at re_tags s
  = if startsWith s open_tag then Some 7
    else if startsWith s close_tag then Some 8
    else None.
Proof.
  unfold exec_at, re_tags. cbn [rmatch]. rewrite !rmatch_lit.
  destruct (startsWith s open_tag) eqn:O.
  - f_equal. apply (startsWith_length s open_tag O).
  - destruct (startsWith s close_tag) eqn:C; [|reflexivity].
    f_equal. apply (startsWith_length s close_tag C).
Qed.

(** The block patterns match only at an opening delimiter. *)
Lemma exec_at_re_block (s : ustring) :
  startsWith s open_tag = false -> exec_at re_block s = None.
Proof.
  intros O. unfold exec_at, re_block. cbn [rmatch]. rewrite rmatch_lit, O.
  reflexivity.
Qed.

Lemma exec_at_re_block_lines (s : ustring) :
  startsWith s open_tag = false -> exec_at re_block_lines s = None.
Proof.
  intros O. unfold exec_at, re_block_lines. cbn [rmatch]. rewrite rmatch_lit, O.
  reflexivity.
Qed.

Lemma includes_cons_false (c : N) (s m : ustring) :
  includes (c :: s) m = false ->
  startsWith (c :: s) m = false /\ includes s m = false.
Proof. cbn [includes]. intros H. apply orb_false_iff in H. exact H. Qed.

(** A pattern that matches nowhere in the text leaves it as it is. *)
Lemma replace_all_no_match (r : regex) (tag : ustring) (s : ustring) :
  tag <> [] ->
  (forall t, startsWith t tag = false -> exec_at r t = None) ->
  includes s tag = false ->
  replace_all r [] s = s.
Proof.
  intros Htag Hr. unfold replace_all. induction s as [|c s IH]; intros I.
  - cbn. rewrite Hr; [reflexivity|]. destruct tag; [contradiction | reflexivity].
  - apply includes_cons_false in I as [S I]. cbn [replace_from].
    rewrite (Hr _ S), (IH I). reflexivity.
Qed.

Lemma replace_tags_free (s : ustring) :
  delimiter_free s -> replace_all re_tags [] s = s.
Proof.
  intros [O C]. unfold replace_all. induction s as [|c s IH].
  - reflexivity.
  - apply includes_cons_false in O as [SO O].
    apply includes_cons_false in C as [SC C].
    cbn [replace_from]. rewrite exec_at_re_tags, SO, SC, (IH O C). reflexivity.
Qed.

Lemma replace_from_length (r : regex) (s : ustring) (skip : nat) :
  length (replace_from r [] skip s) <= length s.
Proof. apply subsequence_length, replace_from_subsequence. Qed.

(** The first pass shortens a text that holds a delimiter. *)
Lemma replace_tags_shorter (s : ustring) :
  includes s open_tag || includes s close_tag = true ->
  length (replace_all re_tags [] s) < length s.
Proof.
  unfold replace_all. induction s as [|c s IH]; intros I.
  - discriminate I.
  - cbn [replace_from]. rewrite exec_at_re_tags.
    cbn [includes] in I.
    destruct (startsWith (c :: s) open_tag) eqn:SO.
    { cbn [app length]. pose proof (replace_from_length re_tags s 6). lia. }
    destruct (startsWith (c :: s) close_tag) eqn:SC.
    { cbn [app length]. pose proof (replace_from_length re_tags s 7). lia. }
    cbn [orb] in I. cbn [length]. apply IH in I. lia.
Qed.

Lemma delimiter_free_dec (s : ustring) :
  delimiter_free s \/ includes s open_tag || includes s close_tag = true.
Proof.
  unfold delimiter_free.
  destruct (includes s open_tag); [right; reflexivity|].
  destruct (includes s close_tag); [right; reflexivity|].
  left. split; reflexivity.
Qed.

Lemma Speaker_sanitize_free (s : ustring) :
  delimiter_free s -> Speaker.removeThinkingTags s = s.
Proof.
  intros F. unfold Speaker.removeThinkingTags. destruct s as [|c s]; [reflexivity|].
  rewrite (replace_tags_free _ F).
  apply (replace_all_no_match re_block open_tag); [discriminate | | apply F].
  apply exec_at_re_block.
Qed.

Lemma XiaoAI_sanitize_free (s : ustring) :
  delimiter_free s -> XiaoAI.removeThinkingTags s = s.
Proof.
  intros F. unfold XiaoAI.removeThinkingTags.
  rewrite (replace_tags_free _ F).
  rewrite (replace_all_no_match re_block_lines open_tag);
    [| discriminate | apply exec_at_re_block_lines | apply F].
  apply (replace_all_no_match re_block open_tag); [discriminate | | apply F].
  apply exec_at_re_block.
Qed.

Lemma Speaker_sanitize_shorter (s : ustring) :
  includes s open_tag || includes s close_tag = true ->
  length (Speaker.removeThinkingTags s) < length s.
Proof.
  intros I. unfold Speaker.removeThinkingTags.
  destruct s as [|c s]; [discriminate I|].
  pose proof (replace_tags_shorter _ I) as L1.
  pose proof (replace_from_length re_block (replace_all re_tags [] (c :: s)) 0) as L2.
  unfold replace_all in *. lia.
Qed.

Lemma XiaoAI_sanitize_shorter (s : ustring) :
  includes s open_tag || includes s close_tag = true ->
  length (XiaoAI.removeThinkingTags s) < length s.
Proof.
  intros I. unfold XiaoAI.removeThinkingTags.
  pose proof (replace_tags_shorter _ I) as L1.
  set (s1 := replace_all re_tags [] s) in *.
  pose proof (replace_from_length re_block_lines s1 0) as L2.
  fold (replace_all re_block_lines [] s1) in L2.
  set (s2 := replace_all re_block_lines [] s1) in *.
  pose proof (replace_from_length re_block s2 0) as L3.
  unfold replace_all at 1. lia.
Qed.

(** X2.  The texts that a sanitizer returns unchanged are exactly the
    texts that contain neither [<think>] nor [</think>]; every other text
    comes back shorter. *)
Theorem removeThinkingTags_fixed_points :
  forall text : ustring,
    (Speaker.removeThinkingTags text = text <-> delimiter_free text)
    /\ (XiaoAI.removeThinkingTags text = text <-> delimiter_free text)
    /\ (~ delimiter_free text ->
        length (Speaker.removeThinkingTags text) < length text
        /\ length (XiaoAI.removeThinkingTags text) < length text).
Proof.
  intros text. split; [|split].
  - split; [|apply Speaker_sanitize_free].
    intros E. destruct (delimiter_free_dec text) as [F | I]; [exact F|].
    apply Speaker_sanitize_shorter in I. rewrite E in I. lia.
  - split; [|apply XiaoAI_sanitize_free].
    intros E. destruct (delimiter_free_dec text) as [F | I]; [exact F|].
    apply XiaoAI_sanitize_shorter in I. rewrite E in I. lia.
  - intros NF. destruct (delimiter_free_dec text) as [F | I]; [contradiction|].
    split; [apply Speaker_sanitize_shorter | apply XiaoAI_sanitize_shorter];
      exact I.
Qed.

Lemma iter_sanitize_free (f : ustring -> ustring) (n : nat) (s : ustring) :
  (forall t, delimiter_free t -> f t = t) ->
  delimiter_free s -> Nat.iter n f s = s.
Proof.
  intros Hf F. induction n as [|n IH]; [reflexivity|].
  rewrite Nat.iter_succ, IH. apply Hf. exact F.
Qed.

Lemma iter_sanitize (f : ustring -> ustring) :
  (forall t, delimiter_free t -> f t = t) ->
  (forall t, includes t open_tag || includes t close_tag = true ->
             length (f t) < length t) ->
  forall n s, length s <= n -> delimiter_free (Nat.iter n f s).
Proof.
  intros Hfree Hshort. induction n as [|n IH]; intros s L.
  - destruct s; [split; reflexivity | cbn in L; lia].
  - destruct (delimiter_free_dec s) as [F | I].
    + rewrite (iter_sanitize_free f (S n) s Hfree F). exact F.
    + rewrite Nat.iter_succ_r. apply IH.
      specialize (Hshort s I). lia.
Qed.

(** X3.  Run again and again, a sanitizer ends at a text without
    delimiters: as many runs as the text has characters are enough, and
    the text they reach is one that a further run leaves alone. *)
Theorem removeThinkingTags_iterated :
  forall text : ustring,
    delimiter_free (Nat.iter (length text) Speaker.removeThinkingTags text)
    /\ delimiter_free (Nat.iter (length text) XiaoAI.removeThinkingTags text)
    /\ Nat.iter (S (length text)) Speaker.removeThinkingTags text
       = Nat.iter (length text) Speaker.removeThinkingTags text
    /\ Nat.iter (S (length text)) XiaoAI.removeThinkingTags text
       = Nat.iter (length text) XiaoAI.removeThinkingTags text.
Proof.
  intros text.
  assert (F1 : delimiter_free (Nat.iter (length text) Speaker.removeThinkingTags text)).
  { apply iter_sanitize; [apply Speaker_sanitize_free
                         | apply Speaker_sanitize_shorter | lia]. }
  assert (F2 : delimiter_free (Nat.iter (length text) XiaoAI.removeThinkingTags text)).
  { apply iter_sanitize; [apply XiaoAI_sanitize_free
                         | apply XiaoAI_sanitize_shorter | lia]. }
  repeat split; try apply F1; try apply F2.
  - rewrite Nat.iter_succ. apply Speaker_sanitize_free. exact F1.
  - rewrite Nat.iter_succ. apply XiaoAI_sanitize_free. exact F2.
Qed.

(* ================================================================== *)
(** * The other operations of the speaker *)

Lemma stdout_includes_world (res : JSValue) (s : ustring) (w : World) :
  snd (Speaker.stdout_includes res s w) = w.
Proof.
  unfold Speaker.stdout_includes, bind, lift, ret, throw.
  destruct (nullish res); [reflexivity|].
  destruct (get res (u "stdout")) as [so|err]; [|reflexivity].
  destruct (nullish so); [reflexivity|].
  destruct (Speaker.call_includes so s); reflexivity.
Qed.

Lemma stdout_includes_absent (res : JSValue) (s : ustring) (w : World) :
  nullish res = true -> Speaker.stdout_includes res s w = (Normal None, w).
Proof. unfold Speaker.stdout_includes. intros ->. reflexivity. Qed.

Lemma stdout_includes_text (res : JSValue) (t s : ustring) (w : World) :
  get res (u "stdout") = Normal (JStr t) ->
  Speaker.stdout_includes res s w = (Normal (Some (includes t s)), w).
Proof.
  intros G. unfold Speaker.stdout_includes, bind, lift.
  rewrite (get_Normal_not_nullish _ _ _ G), G. reflexivity.
Qed.

Lemma stdout_includes_missing (res : JSValue) (s : ustring) (w : World) :
  nullish res = false -> nullish (get_opt res (u "stdout")) = true ->
  Speaker.stdout_includes res s w = (Throw TypeError, w).
Proof.
  intros N S. unfold Speaker.stdout_includes, bind, lift.
  rewrite N, (get_total res _ N), S. reflexivity.
Qed.


(** An operation that sends one command and then only looks at the
    result. *)
Lemma one_command_world {A} (env : Env) (script : ustring)
  (k : JSValue -> M A) (w : World) :
  (forall res w', snd (k res w') = w') ->
  snd (bind (Speaker.runShell env script None) k w) = sent w script None.
Proof. intros Hk. unfold bind. rewrite runShell_eq. apply Hk. Qed.

Lemma play_world (env : Env) (options : Speaker.PlayOptions) (w : World) :
  (exists err, Speaker.isNewDevice env w
               = (Throw err, sent w Speaker.probe_script None)
               /\ Speaker.play env options w
                  = (Throw err, sent w Speaker.probe_script None))
  \/ (exists v, Speaker.isNewDevice env w
                = (Normal v, sent w Speaker.probe_script None)
                /\ snd (Speaker.play env options w)
                   = sent (sent w Speaker.probe_script None)
                       (play_command env options (truthy v))
                       (Some (Speaker.play_timeout options))).
Proof.
  pose proof (isNewDevice_world env w) as W.
  destruct (Speaker.isNewDevice env w) as [[v|err] w1] eqn:E; cbn [snd] in W;
    subst w1.
  - right. exists v. split; [reflexivity|].
    unfold Speaker.play, bind. rewrite E. unfold play_command.
    destruct (truthy v); rewrite runShell_eq; [reflexivity|].
    set (res := resolved_value _).
    destruct (nullish res); [reflexivity|].
    unfold lift. destruct (get res (u "stdout")) as [so|e2]; [|reflexivity].
    destruct (nullish so); [reflexivity|].
    destruct (Speaker.call_includes so (u "`code`: 0")); reflexivity.
  - left. exists err. split; [reflexivity|].
    unfold Speaker.play, bind. rewrite E. reflexivity.
Qed.

(** X4.  Apart from [getPlaying], no operation writes the status, hands
    on a message or logs: each sends its one command with the default
    timeout of ten seconds and leaves the rest of the world alone, whatever
    the bridge answers and also when it throws.  [play] sends the probe
    first and at most one command after it. *)
Theorem speaker_operations_frame :
  forall (env : Env) (w : World),
    (forall playing,
        snd (Speaker.setPlaying env playing w)
        = sent w (playing_script playing) None)
    /\ (forall awake silent,
           snd (Speaker.wakeUp env awake silent w)
           = sent w (wake_script awake silent) None)
    /\ snd (Speaker.abortXiaoAI env w) = sent w Speaker.abort_script None
    /\ snd (Speaker.getBoot env w) = sent w Speaker.boot_script None
    /\ (forall b,
           snd (Speaker.setBoot env b w) = sent w (set_boot_script b) None)
    /\ snd (Speaker.getDevice env w) = sent w Speaker.device_script None
    /\ snd (Speaker.getMic env w) = sent w Speaker.mic_script None
    /\ (forall turn_on,
           snd (Speaker.setMic env turn_on w)
           = sent w (mic_switch_script turn_on) None)
    /\ (forall options,
           let w' := snd (Speaker.play env options w) in
           status w' = status w /\ messages w' = messages w
           /\ console w' = console w
           /\ exists rest,
                shell_calls w'
                = shell_calls w ++ (Speaker.probe_script, (10 * 1000)%Q) :: rest
                /\ length rest <= 1).
Proof.
  intros env w. repeat apply conj.
  - intros playing. unfold Speaker.setPlaying, playing_script.
    apply one_command_world. intros. apply stdout_includes_world.
  - intros awake silent. unfold Speaker.wakeUp, wake_script.
    apply one_command_world. intros. apply stdout_includes_world.
  - unfold Speaker.abortXiaoAI. apply one_command_world. reflexivity.
  - unfold Speaker.getBoot. apply one_command_world. intros res w'.
    destruct (nullish res); [reflexivity|].
    unfold bind, lift. destruct (get res (u "stdout")) as [so|e]; [|reflexivity].
    destruct so; reflexivity.
  - intros b. unfold Speaker.setBoot, set_boot_script.
    apply one_command_world. intros. apply stdout_includes_world.
  - unfold Speaker.getDevice. apply one_command_world. intros res w'.
    unfold bind. destruct (nullish res); [reflexivity|].
    unfold lift. destruct (get res (u "stdout")) as [so|e]; [|reflexivity].
    destruct so; reflexivity.
  - unfold Speaker.getMic. apply one_command_world. intros res w'.
    unfold bind. pose proof (stdout_includes_world res (u "on") w') as S.
    destruct (Speaker.stdout_includes res (u "on") w') as [[b|e] w2];
      cbn [snd] in S; subst w2; reflexivity.
  - intros turn_on. unfold Speaker.setMic, mic_switch_script.
    apply one_command_world. intros. apply stdout_includes_world.
  - intros options. cbv zeta.
    destruct (play_world env options w) as [(err & _ & E) | (v & _ & E)];
      rewrite E; cbn [snd sent status messages console shell_calls timeout_of].
    + repeat split. exists []. split; [reflexivity | cbn; lia].
    + repeat split. eexists [_]. split; [|cbn; lia].
      rewrite <- app_assoc. reflexivity.
Qed.

Lemma runShell_answers (env : Env) (res : JSValue) (script : ustring)
  (timeout : option Q) (w : World) :
  bridge_answers env res ->
  Speaker.runShell env script timeout w = (Normal res, sent w script timeout).
Proof.
  intros B. rewrite runShell_eq. unfold reply_of. rewrite B. reflexivity.
Qed.

(** The operations that send one command and look for a marker in its
    output. *)
Lemma marker_operation (env : Env) (script marker : ustring) (w : World) :
  bind (Speaker.runShell env script None)
    (fun res => Speaker.stdout_includes res marker) w
  = Speaker.stdout_includes
      (resolved_value (reply_of env script None w)) marker
      (sent w script None).
Proof. unfold bind. rewrite runShell_eq. reflexivity. Qed.

Lemma setPlaying_eq (env : Env) (playing : option bool) (w : World) :
  Speaker.setPlaying env playing w
  = Speaker.stdout_includes
      (resolved_value (reply_of env (playing_script playing) None w))
      Speaker.code_marker (sent w (playing_script playing) None).
Proof. apply marker_operation. Qed.

Lemma wakeUp_eq (env : Env) (awake silent : option bool) (w : World) :
  Speaker.wakeUp env awake silent w
  = Speaker.stdout_includes
      (resolved_value (reply_of env (wake_script awake silent) None w))
      Speaker.code_marker (sent w (wake_script awake silent) None).
Proof. apply marker_operation. Qed.

Lemma setBoot_eq (env : Env) (b : Speaker.BootPart) (w : World) :
  Speaker.setBoot env b w
  = Speaker.stdout_includes
      (resolved_value (reply_of env (set_boot_script b) None w))
      (Speaker.boot_name b) (sent w (set_boot_script b) None).
Proof. apply marker_operation. Qed.

Lemma setMic_eq (env : Env) (turn_on : option bool) (w : World) :
  Speaker.setMic env turn_on w
  = Speaker.stdout_includes
      (resolved_value (reply_of env (mic_switch_script turn_on) None w))
      Speaker.compact_code_marker (sent w (mic_switch_script turn_on) None).
Proof. apply marker_operation. Qed.

Lemma getMic_eq (env : Env) (w : World) :
  Speaker.getMic env w
  = match Speaker.stdout_includes
            (resolved_value (reply_of env Speaker.mic_script None w))
            (u "on") (sent w Speaker.mic_script None) with
    | (Normal found, w') =>
        (Normal (if Speaker.holds found then Speaker.on else Speaker.off), w')
    | (Throw e, w') => (Throw e, w')
    end.
Proof. unfold Speaker.getMic, bind. rewrite runShell_eq. reflexivity. Qed.

Lemma getBoot_eq (env : Env) (w : World) :
  Speaker.getBoot env w
  = let res := resolved_value (reply_of env Speaker.boot_script None w) in
    let w' := sent w Speaker.boot_script None in
    if nullish res then (Normal None, w')
    else
      match get_opt res (u "stdout") with
      | JStr s => (Normal (Some (trim s)), w')
      | _ => (Throw TypeError, w')
      end.
Proof.
  unfold Speaker.getBoot, bind. rewrite runShell_eq. cbv zeta.
  destruct (nullish _) eqn:N; [reflexivity|].
  unfold lift. rewrite (get_total _ _ N).
  destruct (get_opt _ _); reflexivity.
Qed.

Lemma getDevice_eq (env : Env) (w : World) :
  Speaker.getDevice env w
  = let res := resolved_value (reply_of env Speaker.device_script None w) in
    let w' := sent w Speaker.device_script None in
    if nullish res
    then (Normal (Speaker.mkDeviceInfo Speaker.unknown Speaker.unknown), w')
    else
      match get_opt res (u "stdout") with
      | JStr s =>
          (Normal
             (Speaker.mkDeviceInfo
                (Speaker.or_unknown (nth_error (split 32 (trim s)) 0))
                (Speaker.or_unknown (nth_error (split 32 (trim s)) 1))), w')
      | _ => (Throw TypeError, w')
      end.
Proof.
  unfold Speaker.getDevice, bind. rewrite runShell_eq. cbv zeta.
  destruct (nullish _) eqn:N; [reflexivity|].
  unfold lift. rewrite (get_total _ _ N).
  destruct (get_opt _ _); reflexivity.
Qed.

Lemma abortXiaoAI_eq (env : Env) (w : World) :
  Speaker.abortXiaoAI env w
  = (Normal (is_zero (get_opt
                        (resolved_value (reply_of env Speaker.abort_script None w))
                        (u "exit_code"))),
     sent w Speaker.abort_script None).
Proof. unfold Speaker.abortXiaoAI, bind. rewrite runShell_eq. reflexivity. Qed.

Lemma getPlaying_eq (env : Env) (w : World) :
  Speaker.getPlaying env (Some true) w
  = let res := resolved_value (reply_of env Speaker.status_script None w) in
    let w' := sent w Speaker.status_script None in
    if nullish res then (Normal (status w), w')
    else
      match get_opt res (u "stdout") with
      | JUndefined | JNull => (Throw TypeError, w')
      | so =>
          match Speaker.call_includes so (u "1") with
          | Throw e => (Throw e, w')
          | Normal true => (Normal playing, with_status w' playing)
          | Normal false =>
              match Speaker.call_includes so (u "2") with
              | Throw e => (Throw e, w')
              | Normal true => (Normal paused, with_status w' paused)
              | Normal false => (Normal (status w), w')
              end
          end
      end.
Proof.
  unfold Speaker.getPlaying. cbn [Speaker.or_default].
  unfold bind at 1. unfold bind at 1. rewrite runShell_eq. cbv zeta.
  set (res := resolved_value _). set (w' := sent w _ None).
  unfold Speaker.stdout_includes.
  destruct (nullish res) eqn:N; [reflexivity|].
  unfold bind, lift, ret, throw. rewrite (get_total _ _ N).
  destruct (get_opt res (u "stdout")) as [| |b|n|s|l|o]; try reflexivity.
  - cbn. destruct (includes s [49%N]); [reflexivity|].
    destruct (includes s [50%N]); reflexivity.
  - cbn. destruct (existsb (fun v => str_eq v [49%N]) l); [reflexivity|].
    destruct (existsb (fun v => str_eq v [50%N]) l); reflexivity.
Qed.

Lemma getPlaying_text (env : Env) (w : World) (res : JSValue) (t : ustring) :
  resolved_value (reply_of env Speaker.status_script None w) = res ->
  get res (u "stdout") = Normal (JStr t) ->
  Speaker.getPlaying env (Some true) w
  = (Normal (status_of_output t (status w)),
     with_status (sent w Speaker.status_script None)
       (status_of_output t (status w))).
Proof.
  intros R G. rewrite getPlaying_eq. cbv zeta. rewrite R.
  rewrite (get_Normal_not_nullish _ _ _ G), (get_opt_Normal _ _ _ G).
  unfold status_of_output. cbn [Speaker.call_includes].
  destruct (includes t (u "1")); [reflexivity|].
  destruct (includes t (u "2")); reflexivity.
Qed.

(** X5.  A synchronized read of the playback status: the output of the
    status command decides, and a [1] anywhere in it wins over a [2]; an
    output with neither, and a missing result, leave the cached status as
    it was.  The value returned is the cached status after the call.  A
    read that is not synchronized sends nothing. *)
Theorem getPlaying_reads_output :
  forall (env : Env) (w : World) (res : JSValue),
    fst (Speaker.runShell env Speaker.status_script None w) = Normal res ->
    (forall t : ustring,
        get res (u "stdout") = Normal (JStr t) ->
        Speaker.getPlaying env (Some true) w
        = (Normal (status_of_output t (status w)),
           with_status (sent w Speaker.status_script None)
             (status_of_output t (status w))))
    /\ (nullish res = true ->
        Speaker.getPlaying env (Some true) w
        = (Normal (status w), sent w Speaker.status_script None))
    /\ Speaker.getPlaying env None w = (Normal (status w), w)
    /\ Speaker.getPlaying env (Some false) w = (Normal (status w), w).
Proof.
  intros env w res R. rewrite runShell_eq in R. cbn [fst] in R.
  injection R as R.
  split; [|split; [|split; reflexivity]].
  - intros t G. exact (getPlaying_text env w res t R G).
  - intros N. rewrite getPlaying_eq. cbv zeta. rewrite R, N. reflexivity.
Qed.

Lemma getPlaying_reads_output_witness :
  Speaker.getPlaying
    (sample_env (Resolved (Some (u "{`stdout`:`2 of 10\n`,`stderr`:``,`exit_code`:0}"))))
    (Some true) (mkWorld paused [] [] [])
  = (Normal playing,
     mkWorld playing [(Speaker.status_script, (10 * 1000)%Q)] [] [])
  /\ Speaker.getPlaying (sample_env Rejected) (Some true) (mkWorld paused [] [] [])
     = (Normal paused,
        mkWorld paused [(Speaker.status_script, (10 * 1000)%Q)] [] []).
Proof.
  split.
  - destruct (getPlaying_reads_output
                (sample_env (Resolved (Some (u "{`stdout`:`2 of 10\n`,`stderr`:``,`exit_code`:0}"))))
                (mkWorld paused [] [] []) _ eq_refl) as (H & _).
    rewrite (H (u "2 of 10" ++ [10%N]) eq_refl). reflexivity.
  - destruct (getPlaying_reads_output (sample_env Rejected)
                (mkWorld paused [] [] []) _ eq_refl) as (_ & H & _).
    rewrite (H eq_refl). reflexivity.
Defined.

Lemma play_eq (env : Env) (options : Speaker.PlayOptions) (w : World) :
  Speaker.play env options w
  = match Speaker.isNewDevice env w with
    | (Throw e, w1) => (Throw e, w1)
    | (Normal v, w1) =>
        let script := play_command env options (truthy v) in
        let timeout := Some (Speaker.play_timeout options) in
        let res := resolved_value (reply_of env script timeout w1) in
        let w2 := sent w1 script timeout in
        if truthy v then (Normal (is_zero (get_opt res (u "exit_code"))), w2)
        else if nullish res then (Normal false, w2)
        else
          match get_opt res (u "stdout") with
          | JUndefined | JNull => (Throw TypeError, w2)
          | so =>
              match Speaker.call_includes so Speaker.code_marker with
              | Normal b => (Normal b, w2)
              | Throw e => (Throw e, w2)
              end
          end
    end.
Proof.
  unfold Speaker.play, bind at 1.
  destruct (Speaker.isNewDevice env w) as [[v|e] w1]; [|reflexivity].
  cbv zeta. unfold play_command.
  destruct (truthy v); unfold bind; rewrite runShell_eq; [reflexivity|].
  set (res := resolved_value _).
  destruct (nullish res) eqn:N; [reflexivity|].
  unfold lift. rewrite (get_total _ _ N).
  destruct (get_opt res (u "stdout")); reflexivity.
Qed.

Lemma isNewDevice_eq (env : Env) (w : World) :
  Speaker.isNewDevice env w
  = let res := resolved_value (reply_of env Speaker.probe_script None w) in
    let w' := sent w Speaker.probe_script None in
    if nullish res then (Normal JUndefined, w')
    else
      match get_opt res (u "stdout") with
      | JUndefined | JNull => (Normal JUndefined, w')
      | JStr s => (Normal (JBool (includes (toLowerCase s) Speaker.marker)), w')
      | _ => (Throw TypeError, w')
      end.
Proof.
  unfold Speaker.isNewDevice, bind. rewrite runShell_eq. cbv zeta.
  destruct (nullish _) eqn:N; [reflexivity|].
  unfold lift. rewrite (get_total _ _ N).
  destruct (get_opt _ _); reflexivity.
Qed.

(** X6.  With a bridge that gives no result (a rejection, a timeout, no
    output, text that is not JSON, or [null]), no operation throws: the
    status read keeps the cached status, [play] and [abortXiaoAI] give
    [false], the microphone reads as off, the device as unknown, and the
    operations that look for a marker give [undefined]. *)
Theorem operations_without_result :
  forall (env : Env) (res : JSValue) (w : World),
    bridge_answers env res ->
    nullish res = true ->
    fst (Speaker.getPlaying env (Some true) w) = Normal (status w)
    /\ (forall playing, fst (Speaker.setPlaying env playing w) = Normal None)
    /\ (forall options, fst (Speaker.play env options w) = Normal false)
    /\ (forall awake silent,
           fst (Speaker.wakeUp env awake silent w) = Normal None)
    /\ fst (Speaker.abortXiaoAI env w) = Normal false
    /\ fst (Speaker.getBoot env w) = Normal None
    /\ (forall b, fst (Speaker.setBoot env b w) = Normal None)
    /\ fst (Speaker.getDevice env w)
       = Normal (Speaker.mkDeviceInfo (u "unknown") (u "unknown"))
    /\ fst (Speaker.getMic env w) = Normal Speaker.off
    /\ (forall turn_on, fst (Speaker.setMic env turn_on w) = Normal None).
Proof.
  intros env res w B N.
  assert (R : forall script timeout w0,
             resolved_value (reply_of env script timeout w0) = res).
  { intros. unfold reply_of. apply B. }
  repeat apply conj.
  - rewrite getPlaying_eq. cbv zeta. rewrite R, N. reflexivity.
  - intros p. rewrite setPlaying_eq, R, stdout_includes_absent; [reflexivity | exact N].
  - intros options. rewrite play_eq, isNewDevice_eq. cbv zeta.
    rewrite R, N. cbn [truthy]. rewrite R, N. reflexivity.
  - intros a s. rewrite wakeUp_eq, R, stdout_includes_absent; [reflexivity | exact N].
  - rewrite abortXiaoAI_eq, R. destruct res; try discriminate N; reflexivity.
  - rewrite getBoot_eq. cbv zeta. rewrite R, N. reflexivity.
  - intros b. rewrite setBoot_eq, R, stdout_includes_absent; [reflexivity | exact N].
  - rewrite getDevice_eq. cbv zeta. rewrite R, N. reflexivity.
  - rewrite getMic_eq, R, stdout_includes_absent; [reflexivity | exact N].
  - intros t. rewrite setMic_eq, R, stdout_includes_absent; [reflexivity | exact N].
Qed.

Lemma sample_env_answers (reply : BridgeReply) :
  bridge_answers (sample_env reply) (resolved_value reply).
Proof. intros calls script timeout. reflexivity. Qed.

Lemma operations_without_result_witness :
  fst (Speaker.getMic (sample_env Rejected) initial_world) = Normal Speaker.off
  /\ fst (Speaker.setMic (sample_env (Resolved (Some (u "null")))) None initial_world)
     = Normal None.
Proof.
  split.
  - apply (operations_without_result (sample_env Rejected) JUndefined
             initial_world (sample_env_answers Rejected) eq_refl).
  - apply (operations_without_result (sample_env (Resolved (Some (u "null"))))
             JNull initial_world
             (sample_env_answers (Resolved (Some (u "null")))) eq_refl).
Defined.

(** X7.  A result that is there but has no [stdout] passes the guard
    [res?.] and makes the read of a method of [undefined] throw: every
    operation that looks into [stdout] throws a [TypeError], [play]
    among them on its way through the older dialect.  The probe and
    [abortXiaoAI] do not throw on such a result. *)
Theorem operations_on_result_without_stdout :
  forall (env : Env) (res : JSValue) (w : World),
    bridge_answers env res ->
    nullish res = false ->
    nullish (get_opt res (u "stdout")) = true ->
    fst (Speaker.getPlaying env (Some true) w) = Throw TypeError
    /\ (forall playing, fst (Speaker.setPlaying env playing w) = Throw TypeError)
    /\ (forall options, fst (Speaker.play env options w) = Throw TypeError)
    /\ (forall awake silent,
           fst (Speaker.wakeUp env awake silent w) = Throw TypeError)
    /\ fst (Speaker.getBoot env w) = Throw TypeError
    /\ (forall b, fst (Speaker.setBoot env b w) = Throw TypeError)
    /\ fst (Speaker.getDevice env w) = Throw TypeError
    /\ fst (Speaker.getMic env w) = Throw TypeError
    /\ (forall turn_on, fst (Speaker.setMic env turn_on w) = Throw TypeError)
    /\ fst (Speaker.isNewDevice env w) = Normal JUndefined
    /\ fst (Speaker.abortXiaoAI env w)
       = Normal (is_zero (get_opt res (u "exit_code"))).
Proof.
  intros env res w B N S.
  assert (R : forall script timeout w0,
             resolved_value (reply_of env script timeout w0) = res).
  { intros. unfold reply_of. apply B. }
  assert (I : forall w0, Speaker.isNewDevice env w0
                         = (Normal JUndefined, sent w0 Speaker.probe_script None)).
  { intros w0. rewrite isNewDevice_eq. cbv zeta. rewrite R, N.
    destruct (get_opt res (u "stdout")); try discriminate S; reflexivity. }
  repeat apply conj.
  - rewrite getPlaying_eq. cbv zeta. rewrite R, N.
    destruct (get_opt res (u "stdout")); try discriminate S; reflexivity.
  - intros p. rewrite setPlaying_eq, R, stdout_includes_missing; auto.
  - intros options. rewrite play_eq, I. cbv zeta. cbn [truthy].
    rewrite R, N.
    destruct (get_opt res (u "stdout")); try discriminate S; reflexivity.
  - intros a s. rewrite wakeUp_eq, R, stdout_includes_missing; auto.
  - rewrite getBoot_eq. cbv zeta. rewrite R, N.
    destruct (get_opt res (u "stdout")); try discriminate S; reflexivity.
  - intros b. rewrite setBoot_eq, R, stdout_includes_missing; auto.
  - rewrite getDevice_eq. cbv zeta. rewrite R, N.
    destruct (get_opt res (u "stdout")); try discriminate S; reflexivity.
  - rewrite getMic_eq, R, stdout_includes_missing; auto.
  - intros t. rewrite setMic_eq, R, stdout_includes_missing; auto.
  - rewrite I. reflexivity.
  - rewrite abortXiaoAI_eq, R. reflexivity.
Qed.

Lemma operations_on_result_without_stdout_witness :
  fst (Speaker.getMic (sample_env (Resolved (Some (u "{`exit_code`:1}"))))
         initial_world)
  = Throw TypeError
  /\ fst (Speaker.abortXiaoAI (sample_env (Resolved (Some (u "{`exit_code`:1}"))))
            initial_world)
     = Normal false.
Proof.
  pose proof (operations_on_result_without_stdout
                (sample_env (Resolved (Some (u "{`exit_code`:1}"))))
                _ initial_world
                (sample_env_answers (Resolved (Some (u "{`exit_code`:1}"))))
                eq_refl eq_refl) as H.
  split; [apply H|].
  destruct H as (_ & _ & _ & _ & _ & _ & _ & _ & _ & _ & H). exact H.
Defined.

Lemma isNewDevice_well_typed (env : Env) (w : World) :
  well_typed_bridge env ->
  exists v, Speaker.isNewDevice env w
            = (Normal v, sent w Speaker.probe_script None).
Proof.
  intros B. rewrite isNewDevice_eq. cbv zeta.
  destruct (B (shell_calls w) Speaker.probe_script (timeout_of None))
    as [N | [t G]]; fold (reply_of env Speaker.probe_script None w) in *.
  - rewrite N. eexists. reflexivity.
  - rewrite (get_Normal_not_nullish _ _ _ G), (get_opt_Normal _ _ _ G).
    eexists. reflexivity.
Qed.

Lemma play_well_typed (env : Env) (options : Speaker.PlayOptions) (w : World) :
  well_typed_bridge env ->
  exists (b newDevice : bool),
    Speaker.play env options w
    = (Normal b,
       sent (sent w Speaker.probe_script None)
         (play_command env options newDevice)
         (Some (Speaker.play_timeout options))).
Proof.
  intros B. rewrite play_eq.
  destruct (isNewDevice_well_typed env w B) as [v ->]. cbv zeta.
  destruct (truthy v) eqn:T.
  - eexists _, true. reflexivity.
  - set (w1 := sent w Speaker.probe_script None).
    destruct (B (shell_calls w1) (play_command env options false)
                (timeout_of (Some (Speaker.play_timeout options))))
      as [N | [t G]];
      fold (reply_of env (play_command env options false)
              (Some (Speaker.play_timeout options)) w1) in *.
    + rewrite N. exists false, false. reflexivity.
    + rewrite (get_Normal_not_nullish _ _ _ G), (get_opt_Normal _ _ _ G).
      eexists _, false. reflexivity.
Qed.


Lemma sample_env_well_typed :
  well_typed_bridge (sample_env amlogic_reply).
Proof.
  intros calls script timeout. right. exists (u "Amlogic" ++ [10%N]). reflexivity.
Qed.


Lemma trimStart_suffix (t : ustring) : exists pre, t = pre ++ trimStart t.
Proof.
  induction t as [|c t [pre IH]].
  - exists []. reflexivity.
  - cbn. destruct (is_space c).
    + exists (c :: pre). cbn. rewrite <- IH. reflexivity.
    + exists []. reflexivity.
Qed.

Lemma trimEnd_prefix (t : ustring) : exists post, t = trimEnd t ++ post.
Proof.
  unfold trimEnd. destruct (trimStart_suffix (rev t)) as [pre E].
  exists (rev pre). rewrite <- rev_app_distr, <- E, rev_involutive. reflexivity.
Qed.

(** What [trim] returns is a piece of the text. *)
Lemma trim_includes (t : ustring) : includes t (trim t) = true.
Proof.
  apply includes_app. unfold trim.
  destruct (trimStart_suffix t) as [pre E].
  destruct (trimEnd_prefix (trimStart t)) as [post E'].
  exists pre, post. rewrite <- E'. exact E.
Qed.

(** X9.  [setBoot] checks by reading back: when the command prints the
    partition asked for, with white space around it or not, the result is
    [true]; when the first half of the command fails and nothing is
    printed, the result is [false]. *)
Theorem setBoot_reads_back :
  forall (env : Env) (part : Speaker.BootPart) (w : World) (res : JSValue)
         (t : ustring),
    fst (Speaker.runShell env (set_boot_script part) None w) = Normal res ->
    get res (u "stdout") = Normal (JStr t) ->
    (trim t = Speaker.boot_name part ->
     fst (Speaker.setBoot env part w) = Normal (Some true))
    /\ (t = [] -> fst (Speaker.setBoot env part w) = Normal (Some false)).
Proof.
  intros env part w res t R G. rewrite runShell_eq in R. cbn [fst] in R.
  injection R as R.
  rewrite setBoot_eq, R, (stdout_includes_text _ _ _ _ G). cbn [fst].
  split.
  - intros <-. rewrite trim_includes. reflexivity.
  - intros ->. destruct part; reflexivity.
Qed.

Lemma setBoot_reads_back_witness :
  fst (Speaker.setBoot
         (sample_env (Resolved (Some (u "{`stdout`:`boot1\n`,`stderr`:``,`exit_code`:0}"))))
         Speaker.boot1 initial_world)
  = Normal (Some true)
  /\ fst (Speaker.setBoot (sample_env empty_reply) Speaker.boot1 initial_world)
     = Normal (Some false).
Proof.
  split.
  - destruct (setBoot_reads_back
                (sample_env (Resolved (Some (u "{`stdout`:`boot1\n`,`stderr`:``,`exit_code`:0}"))))
                Speaker.boot1 initial_world _ (u "boot1" ++ [10%N])
                eq_refl eq_refl) as [H _].
    apply H. reflexivity.
  - destruct (setBoot_reads_back (sample_env empty_reply)
                Speaker.boot1 initial_world _ [] eq_refl eq_refl) as [_ H].
    apply H. reflexivity.
Defined.

(** X10.  What the operations report is read from the text of [stdout]
    alone, and [exit_code] and [stderr] play no part in it: [setPlaying]
    and [wakeUp] look for ["code": 0], whatever they were asked to do,
    [setMic] for ["code":0] without the blank, [getMic] for [on], and
    [getBoot] gives the text trimmed.  [abortXiaoAI] alone reads
    [exit_code]. *)
Theorem operations_read_stdout :
  forall (env : Env) (res : JSValue) (t : ustring) (w : World),
    bridge_answers env res ->
    get res (u "stdout") = Normal (JStr t) ->
    (forall playing,
        fst (Speaker.setPlaying env playing w)
        = Normal (Some (includes t (u "`code`: 0"))))
    /\ (forall awake silent,
           fst (Speaker.wakeUp env awake silent w)
           = Normal (Some (includes t (u "`code`: 0"))))
    /\ (forall turn_on,
           fst (Speaker.setMic env turn_on w)
           = Normal (Some (includes t (u "`code`:0"))))
    /\ fst (Speaker.getMic env w)
       = Normal (if includes t (u "on") then Speaker.on else Speaker.off)
    /\ fst (Speaker.getBoot env w) = Normal (Some (trim t))
    /\ fst (Speaker.abortXiaoAI env w)
       = Normal (is_zero (get_opt res (u "exit_code"))).
Proof.
  intros env res t w B G.
  assert (R : forall script timeout w0,
             resolved_value (reply_of env script timeout w0) = res).
  { intros. unfold reply_of. apply B. }
  repeat apply conj.
  - intros p. rewrite setPlaying_eq, R, (stdout_includes_text _ _ _ _ G).
    reflexivity.
  - intros a s. rewrite wakeUp_eq, R, (stdout_includes_text _ _ _ _ G).
    reflexivity.
  - intros o. rewrite setMic_eq, R, (stdout_includes_text _ _ _ _ G).
    reflexivity.
  - rewrite getMic_eq, R, (stdout_includes_text _ _ _ _ G). cbn [fst].
    destruct (includes t (u "on")); reflexivity.
  - rewrite getBoot_eq. cbv zeta.
    rewrite R, (get_Normal_not_nullish _ _ _ G), (get_opt_Normal _ _ _ G).
    reflexivity.
  - rewrite abortXiaoAI_eq, R. reflexivity.
Qed.

Lemma operations_read_stdout_witness :
  fst (Speaker.setMic
         (sample_env (Resolved (Some (u "{`stdout`:`{\`code\`:0}\n`,`stderr`:``,`exit_code`:1}"))))
         None initial_world)
  = Normal (Some true)
  /\ fst (Speaker.setPlaying
            (sample_env (Resolved (Some (u "{`stdout`:`{\`code\`:0}\n`,`stderr`:``,`exit_code`:1}"))))
            None initial_world)
     = Normal (Some false).
Proof.
  pose proof (operations_read_stdout
                (sample_env (Resolved (Some (u "{`stdout`:`{\`code\`:0}\n`,`stderr`:``,`exit_code`:1}"))))
                _ (u "{`code`:0}" ++ [10%N]) initial_world
                (sample_env_answers _) eq_refl) as (P & _ & M & _).
  split; [apply (M None) | apply (P None)].
Defined.

(** X11.  What [play] reports.  On a new device it is whether the exit
    code of the command is zero, and [stdout] is not looked at; on an
    older one it is whether [stdout] contains ["code": 0].  Without a
    result it is [false] on both. *)
Theorem play_reports :
  forall (env : Env) (options : Speaker.PlayOptions) (w w1 : World)
         (v res : JSValue),
    Speaker.isNewDevice env w = (Normal v, w1) ->
    fst (Speaker.runShell env (play_command env options (truthy v))
           (Some (Speaker.play_timeout options)) w1) = Normal res ->
    (truthy v = true ->
     fst (Speaker.play env options w)
     = Normal (is_zero (get_opt res (u "exit_code"))))
    /\ (truthy v = false ->
        forall t, get res (u "stdout") = Normal (JStr t) ->
        fst (Speaker.play env options w)
        = Normal (includes t (u "`code`: 0")))
    /\ (nullish res = true -> fst (Speaker.play env options w) = Normal false).
Proof.
  intros env options w w1 v res I R.
  rewrite runShell_eq in R. cbn [fst] in R. injection R as R.
  rewrite play_eq, I. cbv zeta. rewrite R.
  split; [|split].
  - intros ->. reflexivity.
  - intros -> t G.
    rewrite (get_Normal_not_nullish _ _ _ G), (get_opt_Normal _ _ _ G).
    reflexivity.
  - intros N. rewrite N. destruct (truthy v); [|reflexivity].
    destruct res; try discriminate N; reflexivity.
Qed.

Lemma play_reports_witness :
  fst (Speaker.play
         (sample_env (Resolved (Some (u "{`stdout`:`Amlogic`,`stderr`:``,`exit_code`:0}"))))
         (Speaker.mkPlayOptions (Some (u "hello")) None None) initial_world)
  = Normal true
  /\ fst (Speaker.play (sample_env empty_reply)
            (Speaker.mkPlayOptions (Some (u "hello")) None None) initial_world)
     = Normal false.
Proof.
  split.
  - destruct (play_reports
                (sample_env (Resolved (Some (u "{`stdout`:`Amlogic`,`stderr`:``,`exit_code`:0}"))))
                (Speaker.mkPlayOptions (Some (u "hello")) None None)
                initial_world _ _ _ eq_refl eq_refl) as (H & _).
    apply H. reflexivity.
  - destruct (play_reports (sample_env empty_reply)
                (Speaker.mkPlayOptions (Some (u "hello")) None None)
                initial_world _ _ _ eq_refl eq_refl) as (_ & H & _).
    apply (H eq_refl []). reflexivity.
Defined.




Lemma split_from_app (sep : N) (a : ustring) :
  forall cur rest,
    Forall (fun c => c <> sep) a ->
    split_from sep cur (a ++ rest) = split_from sep (rev a ++ cur) rest.
Proof.
  induction a as [|c a IH]; intros cur rest F.
  - reflexivity.
  - inversion F as [|? ? Hc Fa]; subst. cbn [app split_from].
    apply N.eqb_neq in Hc. rewrite Hc, (IH _ _ Fa).
    cbn [rev]. rewrite <- app_assoc. reflexivity.
Qed.

Lemma token_no_blank (x : ustring) :
  token x -> Forall (fun c => c <> 32%N) x.
Proof.
  intros [_ F]. eapply Forall_impl; [|exact F].
  intros c Hc ->. discriminate Hc.
Qed.

Lemma split_one (x : ustring) : token x -> split 32 x = [x].
Proof.
  intros T. unfold split. rewrite <- (app_nil_r x) at 1.
  rewrite (split_from_app 32 x [] [] (token_no_blank x T)).
  cbn. rewrite app_nil_r, rev_involutive. reflexivity.
Qed.

Lemma split_two (x y : ustring) :
  token x -> token y -> split 32 (x ++ 32%N :: y) = [x; y].
Proof.
  intros Tx Ty. unfold split.
  rewrite (split_from_app 32 x [] _ (token_no_blank x Tx)).
  cbn [split_from]. rewrite N.eqb_refl, app_nil_r, rev_involutive.
  f_equal. apply (split_one y Ty).
Qed.

Lemma trimStart_token (x rest : ustring) :
  token x -> trimStart (x ++ rest) = x ++ rest.
Proof.
  intros [Hne F]. destruct x as [|c x]; [contradiction|].
  inversion F as [|? ? Hc _]; subst. cbn. rewrite Hc. reflexivity.
Qed.

Lemma trimEnd_token (x pre : ustring) :
  token x -> trimEnd (pre ++ x) = pre ++ x.
Proof.
  intros [Hne F]. unfold trimEnd. rewrite rev_app_distr.
  destruct (rev x) as [|c r] eqn:E.
  - apply (f_equal (@rev N)) in E. rewrite rev_involutive in E. contradiction.
  - assert (Hc : is_space c = false).
    { rewrite Forall_forall in F. apply F. apply in_rev. rewrite E. left.
      reflexivity. }
    cbn. rewrite Hc. change (c :: r ++ rev pre) with ((c :: r) ++ rev pre).
    rewrite <- E, <- rev_app_distr, rev_involutive. reflexivity.
Qed.

Lemma trimEnd_newline (x : ustring) : trimEnd (x ++ [10%N]) = trimEnd x.
Proof. unfold trimEnd. rewrite rev_app_distr. reflexivity. Qed.

(** X13.  [getDevice] on what the command prints.  Two words and a line
    end give the model and the serial number; one word and a line end
    give the model, and [unknown] for the serial number. *)
Theorem getDevice_tokens :
  forall (env : Env) (w : World) (res : JSValue) (t m : ustring),
    fst (Speaker.runShell env Speaker.device_script None w) = Normal res ->
    get res (u "stdout") = Normal (JStr t) ->
    token m ->
    (forall s : ustring,
        token s ->
        t = m ++ u " " ++ s ++ [10%N] ->
        fst (Speaker.getDevice env w) = Normal (Speaker.mkDeviceInfo m s))
    /\ (t = m ++ [10%N] ->
        fst (Speaker.getDevice env w)
        = Normal (Speaker.mkDeviceInfo m (u "unknown"))).
Proof.
  intros env w res t m R G Tm.
  rewrite (getDevice_stdout env w res t R G). split.
  - intros s Ts ->. unfold trim.
    rewrite (trimStart_token m _ Tm).
    replace (m ++ u " " ++ s ++ [10%N]) with ((m ++ u " " ++ s) ++ [10%N])
      by (rewrite <- !app_assoc; reflexivity).
    rewrite trimEnd_newline.
    replace (m ++ u " " ++ s) with ((m ++ u " ") ++ s)
      by (rewrite <- app_assoc; reflexivity).
    rewrite (trimEnd_token s _ Ts), <- app_assoc.
    change (u " " ++ s) with (32%N :: s).
    rewrite (split_two m s Tm Ts). reflexivity.
  - intros ->. unfold trim.
    rewrite (trimStart_token m _ Tm), trimEnd_newline.
    assert (E : trimEnd m = m) by apply (trimEnd_token m [] Tm).
    rewrite E, (split_one m Tm). reflexivity.
Qed.

Lemma token_of_test (x : ustring) :
  x <> [] -> forallb (fun c => negb (is_space c)) x = true -> token x.
Proof.
  intros Hne Hf. split; [exact Hne|]. apply Forall_forall. intros c Hc.
  rewrite forallb_forall in Hf. apply negb_true_iff. apply Hf. exact Hc.
Qed.

Lemma getDevice_tokens_witness :
  fst (Speaker.getDevice (sample_env model_reply) initial_world)
  = Normal (Speaker.mkDeviceInfo (u "model123") (u "SN456"))
  /\ fst (Speaker.getDevice
            (sample_env (Resolved (Some (u "{`stdout`:`LX06\n`,`stderr`:``,`exit_code`:0}"))))
            initial_world)
     = Normal (Speaker.mkDeviceInfo (u "LX06") (u "unknown")).
Proof.
  split.
  - destruct (getDevice_tokens (sample_env model_reply) initial_world _
                (u "model123 SN456" ++ [10%N]) (u "model123")
                eq_refl eq_refl) as [H _].
    + apply token_of_test; [discriminate | reflexivity].
    + apply (H (u "SN456")); [|reflexivity].
      apply token_of_test; [discriminate | reflexivity].
  - destruct (getDevice_tokens
                (sample_env (Resolved (Some (u "{`stdout`:`LX06\n`,`stderr`:``,`exit_code`:0}"))))
                initial_world _ (u "LX06" ++ [10%N]) (u "LX06")
                eq_refl eq_refl) as [_ H].
    + apply token_of_test; [discriminate | reflexivity].
    + apply H. reflexivity.
Defined.

(* ================================================================== *)
(** * More on the event handler *)

Lemma is_final_result_text (line : JSValue) :
  XiaoAI.is_final_result line = true ->
  get line (u "payload") = Normal (get_opt line (u "payload"))
  /\ get (get_opt line (u "payload")) (u "results")
     = Normal (get_opt (get_opt line (u "payload")) (u "results"))
  /\ get0 (get_opt (get_opt line (u "payload")) (u "results"))
     = Normal (get0_opt (get_opt (get_opt line (u "payload")) (u "results")))
  /\ get (get0_opt (get_opt (get_opt line (u "payload")) (u "results"))) (u "text")
     = Normal (recognized_text line).
Proof.
  intros Hf.
  destruct (is_final_result_reads line Hf) as (p & r & f & t & E1 & E2 & E3 & E4).
  unfold recognized_text.
  rewrite (get_opt_Normal _ _ _ E1), E1.
  rewrite (get_opt_Normal _ _ _ E2), E2.
  rewrite (get0_opt_Normal _ _ E3), E3.
  rewrite (get_opt_Normal _ _ _ E4), E4.
  repeat split.
Qed.

(** The handler, case by case. *)
Lemma onEvent_eq (env : Env) (event : ustring) (w : World) :
  XiaoAI.onEvent env event w
  = match JSON_parse event with
    | Normal e => handled env e w
    | Throw err => (Throw err, w)
    end.
Proof.
  unfold XiaoAI.onEvent, handled.
  destruct (JSON_parse event) as [e|err]; [|reflexivity].
  rewrite bind_lift_Normal.
  destruct (nullish e) eqn:Ne.
  { destruct e; try discriminate Ne; reflexivity. }
  rewrite (get_total e (u "event") Ne), bind_lift_Normal. cbv zeta.
  set (kind := get_opt e (u "event")).
  destruct (str_eq kind (u "playing")).
  { rewrite (get_total e (u "data") Ne), bind_lift_Normal.
    unfold set_status, with_status, status_of_data.
    destruct (get_opt e (u "data")); reflexivity. }
  unfold bind, lift, ret. rewrite (get_total e (u "data") Ne).
  set (data := get_opt e (u "data")).
  destruct (str_eq kind (u "instruction")) eqn:Ki.
  - destruct (nullish data) eqn:Nd.
    { destruct data; try discriminate Nd; reflexivity. }
    rewrite (get_total data (u "NewLine") Nd).
    set (newLine := get_opt data (u "NewLine")).
    destruct (truthy newLine); cbn [andb].
    2:{ apply str_eq_true in Ki. rewrite Ki. reflexivity. }
    destruct (XiaoAI.is_final_result (jsonDecode env newLine)) eqn:Fr;
      [|reflexivity].
    destruct (is_final_result_text _ Fr) as (E1 & E2 & E3 & E4).
    rewrite E1, E2, E3, E4. reflexivity.
  - destruct (str_eq kind (u "kws")); reflexivity.
Qed.


(** X15.  An instruction event with a [data]: a message is handed on
    exactly when [NewLine] is truthy and decodes to a final recognition
    result with a truthy text; then it is one message, and its text is
    [results[0].text] as it stands, a string or not.  In every other case
    the event changes nothing. *)
Theorem onEvent_instruction :
  forall (env : Env) (event : ustring) (e : JSValue) (w : World),
    JSON_parse event = Normal e ->
    get e (u "event") = Normal (JStr (u "instruction")) ->
    nullish (get_opt e (u "data")) = false ->
    XiaoAI.onEvent env event w
    = (Normal tt,
       forwarded w
         (let newLine := get_opt (get_opt e (u "data")) (u "NewLine") in
          if truthy newLine && XiaoAI.is_final_result (jsonDecode env newLine)
          then [utterance env (recognized_text (jsonDecode env newLine))]
          else [])).
Proof.
  intros env event e w P K Nd. rewrite onEvent_eq, P. unfold handled.
  rewrite (get_Normal_not_nullish _ _ _ K), (get_opt_Normal _ _ _ K), Nd.
  cbv zeta.
  replace (str_eq (JStr (u "instruction")) (u "playing")) with false by reflexivity.
  replace (str_eq (JStr (u "instruction")) (u "instruction")) with true by reflexivity.
  destruct (truthy _ && _); [reflexivity|].
  rewrite forwarded_nil. reflexivity.
Qed.

Lemma onEvent_instruction_witness :
  XiaoAI.onEvent (sample_env Rejected)
    numeric_text_event
    initial_world
  = (Normal tt,
     forwarded initial_world
       [mkMessage (JNum (mkNumber false 42 0)) (u "0000-0001") (u "user")
          1700000000000%Z]).
Proof.
  rewrite (onEvent_instruction (sample_env Rejected) numeric_text_event _
             initial_world eq_refl eq_refl eq_refl).
  reflexivity.
Defined.

(** X16.  The status has two writers, and the later one wins.  After a
    playback event a synchronized read sets what the status command
    prints, and keeps what the event set when the output holds neither
    [1] nor [2]; after any read a playback event sets what it carries. *)
Theorem status_last_writer_wins :
  forall (env : Env) (event : ustring) (e : JSValue) (w : World),
    JSON_parse event = Normal e ->
    get e (u "event") = Normal (JStr (u "playing")) ->
    (forall res t,
        fst (Speaker.runShell env Speaker.status_script None
               (snd (XiaoAI.onEvent env event w))) = Normal res ->
        get res (u "stdout") = Normal (JStr t) ->
        fst (Speaker.getPlaying env (Some true)
               (snd (XiaoAI.onEvent env event w)))
        = Normal (status_of_output t (status_of_data (get_opt e (u "data")))))
    /\ (forall sync,
           status (snd (XiaoAI.onEvent env event
                          (snd (Speaker.getPlaying env sync w))))
           = status_of_data (get_opt e (u "data")))
    /\ fst (Speaker.getPlaying env None (snd (XiaoAI.onEvent env event w)))
       = Normal (status_of_data (get_opt e (u "data"))).
Proof.
  intros env event e w P K.
  pose proof (fun w0 => onEvent_playing env event e w0 P K) as E.
  split; [|split].
  - intros res t R G. rewrite E in *. cbn [snd] in *.
    set (w1 := mkWorld _ _ _ _) in *.
    rewrite runShell_eq in R. cbn [fst] in R. injection R as R.
    rewrite (getPlaying_text env w1 res t R G). reflexivity.
  - intros sync. rewrite E. reflexivity.
  - rewrite E. reflexivity.
Qed.

Lemma status_last_writer_wins_witness :
  fst (Speaker.getPlaying (sample_env empty_reply) (Some true)
         (snd (XiaoAI.onEvent (sample_env empty_reply)
                 (u "{`event`:`playing`,`data`:`Paused`}") initial_world)))
  = Normal paused.
Proof.
  destruct (status_last_writer_wins (sample_env empty_reply)
              (u "{`event`:`playing`,`data`:`Paused`}") _ initial_world
              eq_refl eq_refl) as (H & _).
  rewrite (H _ [] eq_refl eq_refl). reflexivity.
Defined.

(* ================================================================== *)
(** * The callers: the response hook, the sample hook, the commands *)

(** X17.  [processAIResponse] without a hook of the parent class, or with
    one that gives the empty text, returns the sanitized response: the
    response with characters deleted, and the response itself when it
    holds no delimiter.  When the hook gives a text, that text is
    sanitized in its place; when the hook throws, the call throws. *)
Theorem processAIResponse_sanitizes :
  forall (response : ustring) (w : World),
    XiaoAI.processAIResponse None response w
    = (Normal (XiaoAI.removeThinkingTags response), w)
    /\ (delimiter_free response ->
        XiaoAI.processAIResponse None response w = (Normal response, w))
    /\ (forall hook w1,
           hook response w = (Normal [], w1) ->
           XiaoAI.processAIResponse (Some hook) response w
           = (Normal (XiaoAI.removeThinkingTags response), w1))
    /\ (forall hook c r w1,
           hook response w = (Normal (c :: r), w1) ->
           XiaoAI.processAIResponse (Some hook) response w
           = (Normal (XiaoAI.removeThinkingTags (c :: r)), w1)
           /\ subsequence (XiaoAI.removeThinkingTags (c :: r)) (c :: r))
    /\ (forall hook err w1,
           hook response w = (Throw err, w1) ->
           XiaoAI.processAIResponse (Some hook) response w = (Throw err, w1)).
Proof.
  intros response w. repeat apply conj.
  - reflexivity.
  - intros F. unfold XiaoAI.processAIResponse, bind, ret.
    rewrite (XiaoAI_sanitize_free response F). reflexivity.
  - intros hook w1 E. unfold XiaoAI.processAIResponse, bind, ret.
    rewrite E. reflexivity.
  - intros hook c r w1 E. split.
    + unfold XiaoAI.processAIResponse, bind, ret. rewrite E. reflexivity.
    + unfold XiaoAI.removeThinkingTags.
      eapply subsequence_trans; [apply replace_all_subsequence|].
      eapply subsequence_trans; apply replace_all_subsequence.
  - intros hook err w1 E. unfold XiaoAI.processAIResponse, bind.
    rewrite E. reflexivity.
Qed.

Lemma app_five {A} (l : list A) (a b c d e : A) :
  ((((l ++ [a]) ++ [b]) ++ [c]) ++ [d]) ++ [e] = l ++ [a; b; c; d; e].
Proof. rewrite <- !app_assoc. reflexivity. Qed.

(** X18.  The message hook of the sample configuration.  The first two
    test phrases are answered without touching the speaker, and any other
    text but the third is left to the engine.  The third phrase sends five
    commands in this order: the restart of the built-in assistant, the
    probe, the command that speaks the sentence with 20 s to finish, the
    probe again, the command that plays the sound with 10 s; each [play]
    asks for the dialect anew. *)
Theorem sample_hook_commands :
  forall (env : Env) (sleep : Z -> M unit) (w : World),
    well_typed_bridge env ->
    waits sleep ->
    (exists first second : bool,
        Config.onMessage env sleep (JStr Config.say_more) w
        = (Normal Config.Handled,
           mkWorld (status w)
             (shell_calls w
              ++ [(Speaker.abort_script, (10 * 1000)%Q);
                  (Speaker.probe_script, (10 * 1000)%Q);
                  (play_command env greet_options first, (20 * 1000)%Q);
                  (Speaker.probe_script, (10 * 1000)%Q);
                  (play_command env url_options second, (10 * 1000)%Q)])
             (messages w) (console w)))
    /\ Config.onMessage env sleep (JStr Config.say_text) w
       = (Normal (Config.ReplyText Config.nice_to_meet_you), w)
    /\ Config.onMessage env sleep (JStr Config.say_music) w
       = (Normal (Config.ReplyUrl Config.sample_url), w)
    /\ (forall text,
           text <> JStr Config.say_text ->
           text <> JStr Config.say_music ->
           text <> JStr Config.say_more ->
           Config.onMessage env sleep text w = (Normal Config.NoReply, w)).
Proof.
  intros env sleep w B S. repeat apply conj.
  - unfold Config.onMessage.
    replace (str_eq (JStr Config.say_more) Config.say_text) with false
      by reflexivity.
    replace (str_eq (JStr Config.say_more) Config.say_music) with false
      by reflexivity.
    replace (str_eq (JStr Config.say_more) Config.say_more) with true
      by reflexivity.
    unfold bind at 1. rewrite abortXiaoAI_eq.
    unfold bind at 1. rewrite S.
    unfold bind at 1.
    set (w1 := sent w Speaker.abort_script None).
    fold greet_options. fold url_options.
    destruct (play_well_typed env greet_options w1 B) as (b1 & n1 & ->).
    unfold bind at 1.
    set (w2 := sent (sent w1 _ None) _ _).
    destruct (play_well_typed env url_options w2 B) as (b2 & n2 & ->).
    exists n1, n2. unfold ret. f_equal.
    unfold w2, w1, sent. cbn [status shell_calls messages console timeout_of].
    rewrite app_five. reflexivity.
  - reflexivity.
  - reflexivity.
  - intros text H1 H2 H3.
    assert (K : forall s, text <> JStr s -> str_eq text s = false).
    { intros s Hn. destruct (str_eq text s) eqn:E; [|reflexivity].
      apply str_eq_true in E. contradiction. }
    unfold Config.onMessage. rewrite (K _ H1), (K _ H2), (K _ H3). reflexivity.
Qed.

Lemma sample_hook_commands_witness :
  fst (Config.onMessage (sample_env amlogic_reply) sample_sleep
         (JStr Config.say_more) initial_world)
  = Normal Config.Handled
  /\ length (shell_calls
               (snd (Config.onMessage (sample_env amlogic_reply) sample_sleep
                       (JStr Config.say_more) initial_world))) = 5.
Proof.
  destruct (sample_hook_commands (sample_env amlogic_reply) sample_sleep
              initial_world sample_env_well_typed (fun ms w => eq_refl))
    as ((b1 & b2 & E) & _).
  rewrite E. split; reflexivity.
Defined.

Lemma quotes_app (a b : ustring) : quotes (a ++ b) = quotes a + quotes b.
Proof. apply count_occ_app. Qed.

(** X19.  [play] puts the text and the url into the shell command between
    single quotes as they are: nothing is escaped.  For a text without
    delimiters, and for a url, the command of the new devices is the fixed
    frame around the very text, so it has two single quotes more than the
    text, or than the url; a single quote in the text ends the quoting on
    the device. *)
Theorem play_embeds_unescaped :
  forall (options : Speaker.PlayOptions),
    (forall t,
        Speaker.str_truthy (Speaker.opt_url options) = false ->
        Speaker.opt_text options = Some t ->
        t <> [] ->
        delimiter_free t ->
        Speaker.new_command options = u "/usr/sbin/tts_play.sh '" ++ t ++ u "'"
        /\ quotes (Speaker.new_command options) = 2 + quotes t)
    /\ (forall url,
           Speaker.opt_url options = Some url ->
           url <> [] ->
           Speaker.new_command options
           = u "curl '" ++ url
             ++ u "' | aplay -Dhw:0,0 -f S16_LE -c 1 -r 24000 -"
           /\ quotes (Speaker.new_command options) = 2 + quotes url).
Proof.
  intros options. split.
  - intros t Hu Ht Hne F.
    assert (E : Speaker.new_command options
                = u "/usr/sbin/tts_play.sh '" ++ t ++ u "'").
    { unfold Speaker.new_command, Speaker.cleanText. rewrite Ht.
      destruct (Speaker.opt_url options) as [[|c url]|]; try discriminate Hu;
        (destruct t as [|c0 t0]; [contradiction|];
         rewrite (Speaker_sanitize_free _ F);
         destruct (c0 :: t0) eqn:T; [discriminate T | reflexivity]). }
    split; [exact E|]. rewrite E, !quotes_app.
    change (quotes (u "/usr/sbin/tts_play.sh '")) with 1.
    change (quotes (u "'")) with 1. lia.
  - intros url Hu Hne.
    assert (E : Speaker.new_command options
                = u "curl '" ++ url
                  ++ u "' | aplay -Dhw:0,0 -f S16_LE -c 1 -r 24000 -").
    { unfold Speaker.new_command. rewrite Hu.
      destruct url; [contradiction | reflexivity]. }
    split; [exact E|]. rewrite E, !quotes_app.
    change (quotes (u "curl '")) with 1.
    change (quotes (u "' | aplay -Dhw:0,0 -f S16_LE -c 1 -r 24000 -")) with 1.
    lia.
Qed.

Lemma play_embeds_unescaped_witness :
  Speaker.new_command (Speaker.mkPlayOptions (Some (u "it's; reboot '")) None None)
  = u "/usr/sbin/tts_play.sh 'it's; reboot ''"
  /\ quotes (Speaker.new_command
               (Speaker.mkPlayOptions (Some (u "it's; reboot '")) None None)) = 4.
Proof.
  destruct (play_embeds_unescaped
              (Speaker.mkPlayOptions (Some (u "it's; reboot '")) None None))
    as [H _].
  destruct (H (u "it's; reboot '") eq_refl eq_refl) as [E Q].
  - discriminate.
  - split; reflexivity.
  - split; [rewrite E; reflexivity | rewrite Q; reflexivity].
Defined.
